(** * IFCAtom / OpenBIMRAG backend: a shallow embedding

    The development follows the three Python modules of the backend:
    - [graph_builder.py]: [build_graph_from_ifc] and its inner helper
      [add_relationship_edge], over a model of networkx's [DiGraph];
    - [ifc_parser.py]: [extract_properties_from_ifc] and
      [parse_ifc_to_files], over a model of pandas' [DataFrame] and of the
      file system;
    - [app.py]: [process_single_ifc_file], [extract_data],
      [parse_ifc_file_async] and the two process-wide registries.

    Python values are untyped, so one type [Val] carries them; Python
    exceptions are the [Raise] results of the monad [Exc]. *)

From Stdlib Require Import ZArith Ascii.
From stdpp Require Import gmap strings list fin_maps pretty.

(** ** Python values and exceptions *)

(** An entity instance of ifcopenshell: its numeric [id()], the name of its
    most-derived type ([is_a()]), the names of the supertypes of that type
    (what [is_a(t)] and [by_type(t)] test) and its attributes in schema
    order.  An attribute that the schema declares but the file leaves unset
    is present with value [VNone]. *)
#[local] Unset Elimination Schemes.
Inductive Val : Type :=
| VNone
| VBool (b : bool)
| VNum (z : Z)
| VNaN
| VStr (s : string)
| VEnt (e : Entity)
| VList (l : list Val)
with Entity : Type :=
| Ent (eid : Z) (ty : string) (supers : list string)
      (attrs : list (string * Val)).
#[local] Set Elimination Schemes.

Inductive PyErr : Type :=
| AttributeError
| TypeError
| KeyError
| RuntimeError
| OSError.

Inductive Exc (A : Type) : Type :=
| Ok (a : A)
| Raise (e : PyErr).
Arguments Ok {A} a.
Arguments Raise {A} e.

(** The exception monad, with stdpp's [x ← m; k] notation. *)
#[global] Instance Exc_ret : MRet Exc := λ A a, Ok a.
#[global] Instance Exc_bind : MBind Exc := λ A B k m,
  match m with
  | Ok a => k a
  | Raise e => Raise e
  end.

(** [for x in xs: acc = body(acc, x)], where the body may raise. *)
Fixpoint for_each {A S : Type} (body : S → A → Exc S) (xs : list A) (s : S)
  : Exc S :=
  match xs with
  | [] => Ok s
  | x :: xs' => s' ← body s x; for_each body xs' s'
  end.

Definition is_ok {A : Type} (m : Exc A) : bool :=
  match m with Ok _ => true | Raise _ => false end.

(** ** ifcopenshell entity instances *)

Definition entity_id (e : Entity) : Z :=
  match e with Ent i _ _ _ => i end.

(** [e.is_a()] *)
Definition is_a (e : Entity) : string :=
  match e with Ent _ t _ _ => t end.

Definition entity_supers (e : Entity) : list string :=
  match e with Ent _ _ ss _ => ss end.

Definition entity_attrs (e : Entity) : list (string * Val) :=
  match e with Ent _ _ _ a => a end.

(** [e.is_a(t)]: [t] is the type of [e] or one of its supertypes. *)
Definition is_a_type (e : Entity) (t : string) : bool :=
  bool_decide (t ∈ is_a e :: entity_supers e).

Fixpoint dict_get (k : string) (l : list (string * Val)) : option Val :=
  match l with
  | [] => None
  | (k', v) :: l' => if decide (k = k') then Some v else dict_get k l'
  end.

(** [hasattr(x, a)] for the attribute names the backend asks for: none of
    them is an attribute of a Python scalar, tuple or [None]. *)
Definition hasattr (x : Val) (a : string) : bool :=
  match x with
  | VEnt e => bool_decide (is_Some (dict_get a (entity_attrs e)))
  | _ => false
  end.

(** [x.a]: [AttributeError] when [x] has no such attribute. *)
Definition attr (x : Val) (a : string) : Exc Val :=
  match x with
  | VEnt e => match dict_get a (entity_attrs e) with
              | Some v => Ok v
              | None => Raise AttributeError
              end
  | _ => Raise AttributeError
  end.

(** [getattr(x, a, d)] *)
Definition getattr (x : Val) (a : string) (d : Val) : Val :=
  match attr x a with
  | Ok v => v
  | Raise _ => d
  end.

(** Python truthiness, as [if not v] tests it. *)
Definition truthy (v : Val) : bool :=
  match v with
  | VNone => false
  | VBool b => b
  | VNum z => negb (Z.eqb z 0)
  | VNaN => true
  | VStr s => negb (String.eqb s "")
  | VEnt _ => true
  | VList l => match l with [] => false | _ => true end
  end.

(** [for x in v]: the schema declares the iterated attributes as aggregates,
    which ifcopenshell returns as tuples, or [None] when unset; iterating
    [None] is a [TypeError]. *)
Definition py_iter (v : Val) : Exc (list Val) :=
  match v with
  | VList l => Ok l
  | _ => Raise TypeError
  end.

(** [GlobalId] is declared [IfcGloballyUniqueId], a STRING type, in every
    IFC schema: ifcopenshell yields a [str], or [None] when it is unset. *)
Definition as_guid (v : Val) : option string :=
  match v with
  | VStr s => Some s
  | _ => None
  end.

(** An opened model: what reading [header.file_name.name] gives (it may
    raise; [None] stands for a header or a [file_name] that is falsy) and
    the entity instances of the file, in file order. *)
Record IfcModel : Type := {
  header_file_name : Exc (option Val);
  instances : list Entity
}.

(** [ifc_model.by_type(t)]: the instances of [t] and of its subtypes. *)
Definition by_type (m : IfcModel) (t : string) : list Entity :=
  filter (λ e, is_a_type e t = true) (instances m).

(** ** networkx: [DiGraph] *)

Module nx.

(** Attribute dictionaries of nodes and edges. *)
Abbreviation attr_dict := (gmap string Val).

(** [_node] maps a node to its attributes; [_succ[u][v]] maps an ordered
    pair to the attributes of THE edge from [u] to [v] (a [DiGraph] holds
    at most one; [_pred] mirrors [_succ] and is left out). *)
Record DiGraph : Type := {
  nodes : gmap string attr_dict;
  edges : gmap (string * string) attr_dict
}.

Definition empty : DiGraph := {| nodes := ∅; edges := ∅ |}.

(** [dict.update]: the new attributes win. *)
Definition update (old new : attr_dict) : attr_dict := new ∪ old.

Definition has_node (G : DiGraph) (n : option string) : bool :=
  match n with
  | Some k => bool_decide (is_Some (nodes G !! k))
  | None => false
  end.

Definition add_node (G : DiGraph) (n : string) (a : attr_dict) : DiGraph :=
  {| nodes := <[n := update (default ∅ (nodes G !! n)) a]> (nodes G);
     edges := edges G |}.

(** [add_edge] first creates the endpoints it does not find, with no
    attributes, then updates the attributes of the edge [u -> v]. *)
Definition add_edge (G : DiGraph) (u v : string) (a : attr_dict) : DiGraph :=
  let with_u := match nodes G !! u with
                | Some _ => nodes G
                | None => <[u := ∅]> (nodes G)
                end in
  let with_uv := match with_u !! v with
                 | Some _ => with_u
                 | None => <[v := ∅]> with_u
                 end in
  {| nodes := with_uv;
     edges := <[(u, v) := update (default ∅ (edges G !! (u, v))) a]> (edges G) |}.

Definition number_of_nodes (G : DiGraph) : nat := size (nodes G).
Definition number_of_edges (G : DiGraph) : nat := size (edges G).

Definition has_edge (G : DiGraph) (u v : string) : bool :=
  bool_decide (is_Some (edges G !! (u, v))).

End nx.

(** ** pandas: [DataFrame] *)

Module pd.

(** A table: its column labels and its rows, each row holding one cell per
    column.  The row index is positional throughout the backend and is
    left out.  pandas' dtype inference is left out as well: a cell holds
    the Python value it was built from. *)
Record DataFrame : Type := {
  columns : list string;
  rows : list (list Val)
}.

(** A record of [to_dict(orient='records')]: a dict in column order. *)
Abbreviation record := (list (string * Val)).

(** [pd.DataFrame()] *)
Definition DataFrame_new : DataFrame := {| columns := []; rows := [] |}.

(** [df.empty]: some axis has length 0. *)
Definition empty (df : DataFrame) : bool :=
  match columns df, rows df with
  | [], _ => true
  | _, [] => true
  | _, _ => false
  end.

(** [len(df)] *)
Definition len (df : DataFrame) : nat := length (rows df).

(** [pd.isna] on a cell: [None] and NaN are missing; a tuple or any other
    object is not. *)
Definition isna (v : Val) : bool :=
  match v with
  | VNone | VNaN => true
  | _ => false
  end.

(** [pd.DataFrame(list_of_dicts)]: the columns are the keys in order of
    first appearance; a key a dict lacks gives NaN in its row. *)
Definition from_records (l : list record) : DataFrame :=
  let cols := remove_dups (concat (map (λ r : record, r.*1) l)) in
  {| columns := cols;
     rows := map (λ r, map (λ c, default VNaN (dict_get c r)) cols) l |}.

(** [df.insert(0, c, v)] with a scalar [v], for a label that is new. *)
Definition insert_first (c : string) (v : Val) (df : DataFrame) : DataFrame :=
  {| columns := c :: columns df; rows := map (cons v) (rows df) |}.

(** The position of a label among the columns. *)
Fixpoint index_of (c : string) (cols : list string) : option nat :=
  match cols with
  | [] => None
  | c' :: cols' => if decide (c = c') then Some 0
                   else S <$> index_of c cols'
  end.

Definition cell (df : DataFrame) (row : list Val) (c : string) : option Val :=
  i ← index_of c (columns df); row !! i.

(** [df[[c1, ..., cn]]]: [KeyError] for a label that is no column. *)
Definition select (cols : list string) (df : DataFrame) : option DataFrame :=
  if forallb (λ c, bool_decide (c ∈ columns df)) cols
  then Some {| columns := cols;
               rows := map (λ row, map (λ c, default VNaN (cell df row c)) cols)
                           (rows df) |}
  else None.

(** [df[c] = v] with a scalar [v]: overwrites the column when it exists,
    appends it otherwise. *)
Definition set_column (c : string) (v : Val) (df : DataFrame) : DataFrame :=
  match index_of c (columns df) with
  | Some i => {| columns := columns df; rows := map (λ row, <[i := v]> row) (rows df) |}
  | None => {| columns := columns df ++ [c]; rows := map (λ row, row ++ [v]) (rows df) |}
  end.

(** [pd.concat(frames, ignore_index=True)]: the union of the columns in
    order of first appearance, the rows of each frame in order, NaN where
    a frame lacks a column. *)
Definition concat (frames : list DataFrame) : DataFrame :=
  let cols := remove_dups (List.concat (map columns frames)) in
  {| columns := cols;
     rows := List.concat
               (map (λ df, map (λ row, map (λ c, default VNaN (cell df row c)) cols)
                               (rows df))
                    frames) |}.

(** [df.to_dict(orient='records')] *)
Definition to_records (df : DataFrame) : list record :=
  map (λ row, zip (columns df) row) (rows df).

(** [{k: (None if pd.isna(v) else v) for k, v in record.items()}] *)
Definition clean_record (r : record) : record :=
  map (λ kv : string * Val, (kv.1, if isna kv.2 then VNone else kv.2)) r.

End pd.

(** ** The world outside the process: file system and console *)

Inductive FileData : Type :=
| IfcFile (m : IfcModel)                (* a file [ifcopenshell.open] parses *)
| PickleFile (df : pd.DataFrame)        (* written by [to_pickle] *)
| CsvFile (df : pd.DataFrame)           (* written by [to_csv] *)
| JsonFile (records : list pd.record)   (* written by [json.dump] *)
| Truncated.                            (* what a failed write leaves; unreadable *)

(** How a write to a path ends: it succeeds, it fails before the file is
    touched (it cannot be opened for writing), or it fails midway and
    leaves a truncated file. *)
Inductive WriteFault : Type :=
| WriteOk
| WriteRefused
| WriteBroken.

Inductive LogEvent : Type :=
(* ifc_parser.py *)
| LogOpenError (path : string)                       (* line 65 *)
| LogHeaderWarning (path : string)                   (* line 73 *)
| LogStartParsing (path file_id : string)            (* line 136 *)
| LogNoProperties (path file_id : string)            (* line 140 *)
| LogCreatedDir (dir : string)                       (* line 147 *)
| LogMkdirError (dir file_id : string)               (* line 149 *)
| LogSavedCsv (path : string)                        (* line 163 *)
| LogSavedJson (path : string)                       (* line 180 *)
| LogSaveError (file_id path : string)               (* line 185 *)
| LogCleanedCsv (path : string)                      (* line 190 *)
| LogDeleteCsvError (path : string)                  (* line 192 *)
| LogCleanedJson (path : string)                     (* line 196 *)
| LogDeleteJsonError (path : string)                 (* line 198 *)
(* app.py, process_single_ifc_file *)
| LogDiskCacheLoaded (file_id : string) (n : nat)    (* line 97 *)
| LogDiskCacheError (path file_id : string)          (* line 100 *)
| LogUsingMemory (file_id : string) (n : nat)        (* line 106 *)
| LogLoadingFromIfc (file_id : string)               (* line 110 *)
| LogDebugParsed (file_id : string)                  (* line 115 *)
| LogParsedOk (file_id : string) (n : nat)           (* line 119 *)
| LogCachedToDisk (path : string)                    (* line 126 *)
| LogPickleSaveError (file_id : string)              (* line 128 *)
| LogEmptyNotCached (file_id : string)               (* line 130 *)
| LogParseError (path file_id : string)              (* line 135 *)
| LoggerParseError (file_id path : string)           (* line 136 *)
| LogPathNotFound (file_id path : string)            (* line 139 *)
(* app.py, extract_data *)
| LogSkipNoMetadata (file_id : string)               (* line 383 *)
| LogSkipNotCompleted (file_id : string)             (* line 385 *)
| LogNoDataFrame (file_id : string)                  (* line 396 *)
| LoggerThreadError (e : PyErr)                      (* line 398 *)
(* app.py, parse_ifc_file_async *)
| LogAsyncNoTask (file_id : string)                  (* line 538 *)
| LogAsyncStarted (file_id path : string)            (* line 542 *)
| LogAsyncCompleted (file_id csv json : string)      (* line 556 *)
| LogAsyncFailed (file_id : string)                  (* line 560 *)
| LogAsyncException (file_id : string) (e : PyErr).  (* line 565 *)

(** The files and directories, what was printed or logged so far (oldest
    first), and the faults of the environment: per path, how a write ends
    and whether a removal or a directory creation is refused. *)
Record World : Type := {
  files : gmap string FileData;
  dirs : gset string;
  stdout : list LogEvent;
  write_fault : string → WriteFault;
  remove_fails : string → bool;
  makedirs_fails : string → bool
}.

Definition with_files (f : gmap string FileData) (w : World) : World :=
  {| files := f; dirs := dirs w; stdout := stdout w;
     write_fault := write_fault w; remove_fails := remove_fails w;
     makedirs_fails := makedirs_fails w |}.

Definition with_dirs (d : gset string) (w : World) : World :=
  {| files := files w; dirs := d; stdout := stdout w;
     write_fault := write_fault w; remove_fails := remove_fails w;
     makedirs_fails := makedirs_fails w |}.

(** [print(...)] and [logger.error(...)] *)
Definition print (e : LogEvent) (w : World) : World :=
  {| files := files w; dirs := dirs w; stdout := stdout w ++ [e];
     write_fault := write_fault w; remove_fails := remove_fails w;
     makedirs_fails := makedirs_fails w |}.

Module os.

(** [os.path.exists] *)
Definition path_exists (w : World) (p : string) : bool :=
  bool_decide (is_Some (files w !! p)) || bool_decide (p ∈ dirs w).

Definition starts_with_sep (s : string) : bool :=
  match s with
  | String c _ => bool_decide (c = "/"%char)
  | EmptyString => false
  end.

Fixpoint ends_with_sep (s : string) : bool :=
  match s with
  | EmptyString => false
  | String c EmptyString => bool_decide (c = "/"%char)
  | String _ s' => ends_with_sep s'
  end.

(** [os.path.join(a, b)] of posixpath. *)
Definition path_join (a b : string) : string :=
  if starts_with_sep b then b
  else if bool_decide (a = "") || ends_with_sep a then a +:+ b
  else a +:+ "/" +:+ b.

(** [os.makedirs(d)] *)
Definition makedirs (d : string) (w : World) : World * Exc unit :=
  if makedirs_fails w d then (w, Raise OSError)
  else (with_dirs ({[d]} ∪ dirs w) w, Ok ()).

(** [os.remove(p)]: refused by the environment, or [p] is no file. *)
Definition remove (p : string) (w : World) : World * Exc unit :=
  if remove_fails w p || bool_decide (files w !! p = None)
  then (w, Raise OSError)
  else (with_files (delete p (files w)) w, Ok ()).

(** Writing [d] to the path [p], as [to_csv], [to_pickle] and
    [open(p, 'w')] followed by [json.dump] do. *)
Definition write_file (p : string) (d : FileData) (w : World) : World * Exc unit :=
  if bool_decide (p ∈ dirs w) then (w, Raise OSError) else
  match write_fault w p with
  | WriteOk => (with_files (<[p := d]> (files w)) w, Ok ())
  | WriteRefused => (w, Raise OSError)
  | WriteBroken => (with_files (<[p := Truncated]> (files w)) w, Raise OSError)
  end.

End os.

(** [ifcopenshell.open(path)] *)
Definition ifcopenshell_open (w : World) (path : string) : Exc IfcModel :=
  match files w !! path with
  | Some (IfcFile m) => Ok m
  | _ => Raise OSError
  end.

(** [pd.read_pickle(path)] *)
Definition read_pickle (w : World) (path : string) : Exc pd.DataFrame :=
  match files w !! path with
  | Some (PickleFile df) => Ok df
  | _ => Raise OSError
  end.

(** ** graph_builder.py *)

Module graph_builder.

(** The keyword arguments of [G.add_node] for a product. *)
Definition product_attrs (item : Entity) : nx.attr_dict :=
  <["ifc_type" := VStr (is_a item)]>
  (<["name" := getattr (VEnt item) "Name" VNone]>
   (<["description" := getattr (VEnt item) "Description" VNone]>
    (<["ifc_id" := VNum (entity_id item)]> ∅))).

(** The keyword arguments of [G.add_edge] for a relationship: its type,
    its [Name] attribute or, when it has none, the default label, and
    its id. *)
Definition relation_attrs (rel_instance : Entity) (default_label : string)
  : nx.attr_dict :=
  <["relation_type" := VStr (is_a rel_instance)]>
  (<["relation_name" := getattr (VEnt rel_instance) "Name" (VStr default_label)]>
   (<["ifc_rel_id" := VNum (entity_id rel_instance)]> ∅)).

(** Node population, one iteration of [for item in definitions].  The
    [AttributeError] of [item.GlobalId] is caught and the item skipped;
    an item whose [GlobalId] is falsy is skipped too. *)
Definition add_product_node (G : nx.DiGraph) (item : Entity) : nx.DiGraph :=
  match attr (VEnt item) "GlobalId" with
  | Raise _ => G
  | Ok global_id =>
      if negb (truthy global_id) then G
      else match as_guid global_id with
           | None => G
           | Some node_id =>
               nx.add_node G node_id (product_attrs item)
           end
  end.

Definition populate_nodes (m : IfcModel) : nx.DiGraph :=
  foldl add_product_node nx.empty (by_type m "IfcProduct").

(** The inner helper of [build_graph_from_ifc]; it closes over [G], which
    is threaded here, and answers whether it added the edge.  None of its
    attribute reads can raise after the [hasattr] guard, and [is_a()],
    [id()] and the three-argument [getattr] never do. *)
Definition add_relationship_edge (G : nx.DiGraph)
    (source_entity target_entity : Val) (rel_instance : Entity)
    (default_label : string) : nx.DiGraph * bool :=
  if negb (hasattr source_entity "GlobalId" && hasattr target_entity "GlobalId")
  then (G, false)
  else
    let source_id := as_guid (getattr source_entity "GlobalId" VNone) in
    let target_id := as_guid (getattr target_entity "GlobalId" VNone) in
    if nx.has_node G source_id && nx.has_node G target_id then
      match source_id, target_id with
      | Some u, Some v =>
          (nx.add_edge G u v (relation_attrs rel_instance default_label), true)
      | _, _ => (G, false)
      end
    else (G, false).

(** The loop state: the graph and [edges_added_count]. *)
Definition BuildState : Type := nx.DiGraph * nat.

Definition count_edge (r : nx.DiGraph * bool) (n : nat) : BuildState :=
  (r.1, if r.2 then S n else n).

(** [for rel in by_type("IfcRelContainedInSpatialStructure")] *)
Definition contained_step (st : BuildState) (rel : Entity) : Exc BuildState :=
  relating_structure ← attr (VEnt rel) "RelatingStructure";
  related ← attr (VEnt rel) "RelatedElements";
  elements ← py_iter related;
  Ok (foldl (λ s element,
               count_edge (add_relationship_edge s.1 element relating_structure
                             rel "is_contained_in") s.2)
            st elements).

(** [for rel in by_type("IfcRelAggregates")] *)
Definition aggregates_step (st : BuildState) (rel : Entity) : Exc BuildState :=
  relating_object ← attr (VEnt rel) "RelatingObject";
  related ← attr (VEnt rel) "RelatedObjects";
  parts ← py_iter related;
  Ok (foldl (λ s part,
               count_edge (add_relationship_edge s.1 part relating_object
                             rel "is_part_of") s.2)
            st parts).

(** [for rel in by_type("IfcRelConnects")] *)
Definition connects_step (st : BuildState) (rel : Entity) : Exc BuildState :=
  if hasattr (VEnt rel) "RelatingElement" && hasattr (VEnt rel) "RelatedElement"
  then
    relating ← attr (VEnt rel) "RelatingElement";
    related ← attr (VEnt rel) "RelatedElement";
    Ok (count_edge (add_relationship_edge st.1 relating related
                      rel "connects_to") st.2)
  else Ok st.

(** [for rel in by_type("IfcRelVoidsElement")] *)
Definition voids_step (st : BuildState) (rel : Entity) : Exc BuildState :=
  opening ← attr (VEnt rel) "RelatedOpeningElement";
  element_voided ← attr (VEnt rel) "RelatingBuildingElement";
  Ok (count_edge (add_relationship_edge st.1 opening element_voided
                    rel "voids_in_element") st.2).

(** [for rel in by_type("IfcRelFillsElement")] *)
Definition fills_step (st : BuildState) (rel : Entity) : Exc BuildState :=
  filling_element ← attr (VEnt rel) "RelatedBuildingElement";
  opening_filled ← attr (VEnt rel) "RelatingOpeningElement";
  Ok (count_edge (add_relationship_edge st.1 filling_element opening_filled
                    rel "fills_opening") st.2).

(** Edge population: the five loops, in the order of the source. *)
Definition populate_edges (m : IfcModel) (G : nx.DiGraph) : Exc BuildState :=
  s1 ← for_each contained_step
         (by_type m "IfcRelContainedInSpatialStructure") (G, 0);
  s2 ← for_each aggregates_step (by_type m "IfcRelAggregates") s1;
  s3 ← for_each connects_step (by_type m "IfcRelConnects") s2;
  s4 ← for_each voids_step (by_type m "IfcRelVoidsElement") s3;
  for_each fills_step (by_type m "IfcRelFillsElement") s4.

(** The body of [build_graph_from_ifc] once the file is open: the graph
    and the [edges_added_count] it prints.  The elapsed time it also
    returns is wall-clock time and is left out. *)
Definition build_graph (m : IfcModel) : Exc BuildState :=
  populate_edges m (populate_nodes m).

(** [build_graph_from_ifc(ifc_file_path)]: [None] when the file cannot be
    opened.  What the function prints is not part of its result and is
    left out. *)
Definition build_graph_from_ifc (ifc_file_path : string) (w : World)
  : Exc (option nx.DiGraph) :=
  match ifcopenshell_open w ifc_file_path with
  | Raise _ => Ok None
  | Ok ifc_model => st ← build_graph ifc_model; Ok (Some st.1)
  end.

End graph_builder.

(** ** ifc_parser.py *)

Module ifc_parser.

(** [x.is_a(t)] on a value that need not be an entity instance. *)
Definition is_a_call (x : Val) (t : string) : Exc bool :=
  match x with
  | VEnt e => Ok (is_a_type e t)
  | _ => Raise AttributeError
  end.

(** [x.a if hasattr(x, a) else d] *)
Definition attr_or (x : Val) (a : string) (d : Val) : Val :=
  if hasattr x a then getattr x a d else d.

(** [v is None] *)
Definition is_None (v : Val) : bool :=
  match v with VNone => true | _ => false end.

(** The value of one property: [NominalValue.wrappedValue], dereferenced
    once more when it is itself a wrapper. *)
Definition property_value (prop : Val) : Val :=
  if hasattr prop "NominalValue"
     && negb (is_None (getattr prop "NominalValue" VNone))
  then
    let prop_value := getattr (getattr prop "NominalValue" VNone) "wrappedValue" VNone in
    if hasattr prop_value "wrappedValue"
    then getattr prop_value "wrappedValue" prop_value
    else prop_value
  else VNone.

(** The dict appended for one (element, property set, property). *)
Definition property_record (inst : Entity) (pset_name : Val) (prop : Val)
  : pd.record :=
  [("IFC_Entity", VStr (is_a inst));
   ("IFC_Name", attr_or (VEnt inst) "Name" VNone);
   ("IFC_GlobalId", attr_or (VEnt inst) "GlobalId" VNone);
   ("PropertySet", pset_name);
   ("PropertyName", attr_or prop "Name" (VStr "Unknown"));
   ("PropertyValue", property_value prop)].

(** [for rel in inst.IsDefinedBy]: the rows one relation contributes. *)
Definition relation_records (inst : Entity) (acc : list pd.record) (rel : Val)
  : Exc (list pd.record) :=
  defines ← is_a_call rel "IfcRelDefinesByProperties";
  if defines : bool then
    prop_definition ← attr rel "RelatingPropertyDefinition";
    is_pset ← is_a_call prop_definition "IfcPropertySet";
    if is_pset : bool then
      let pset_name := attr_or prop_definition "Name" (VStr "Unknown") in
      if hasattr prop_definition "HasProperties" then
        has_properties ← attr prop_definition "HasProperties";
        props ← py_iter has_properties;
        Ok (acc ++ map (property_record inst pset_name) props)
      else Ok acc
    else Ok acc
  else Ok acc.

(** [for inst in instances] *)
Definition instance_records (acc : list pd.record) (inst : Entity)
  : Exc (list pd.record) :=
  if hasattr (VEnt inst) "IsDefinedBy" then
    is_defined_by ← attr (VEnt inst) "IsDefinedBy";
    rels ← py_iter is_defined_by;
    for_each (relation_records inst) rels acc
  else Ok acc.

(** [extracted_data_list] after the walk over [by_type("IfcElement")]. *)
Definition extracted_data_list (m : IfcModel) : Exc (list pd.record) :=
  for_each instance_records (by_type m "IfcElement") [].

Definition output_columns : list string :=
  ["FileName"; "IFC_Entity"; "IFC_Name"; "IFC_GlobalId";
   "PropertySet"; "PropertyName"; "PropertyValue"].

(** [extract_properties_from_ifc(ifc_file_path)].  A file that cannot be
    opened is reported on the console and answered with [pd.DataFrame()];
    an exception of the walk itself is not caught here. *)
Definition extract_properties_from_ifc (ifc_file_path : string) (w : World)
  : World * Exc pd.DataFrame :=
  match ifcopenshell_open w ifc_file_path with
  | Raise _ => (print (LogOpenError ifc_file_path) w, Ok pd.DataFrame_new)
  | Ok ifc_model =>
      let '(w, file_name_header) :=
        match header_file_name ifc_model with
        | Ok (Some name) => (w, name)
        | Ok None => (w, VStr "Unknown")
        | Raise _ => (print (LogHeaderWarning ifc_file_path) w, VStr "Unknown")
        end in
      match extracted_data_list ifc_model with
      | Raise e => (w, Raise e)
      | Ok l =>
          let df := pd.from_records l in
          if negb (pd.empty df) then
            match pd.select output_columns
                    (pd.insert_first "FileName" file_name_header df) with
            | Some df' => (w, Ok df')
            | None => (w, Raise KeyError)
            end
          else (w, Ok df)
      end
  end.

(** The [try] block of [parse_ifc_to_files]: the CSV, then the JSON. *)
Definition save_outputs (csv_file_path json_file_path : string)
    (df_properties : pd.DataFrame) (w : World) : World * Exc unit :=
  match os.write_file csv_file_path (CsvFile df_properties) w with
  | (w, Raise e) => (w, Raise e)
  | (w, Ok _) =>
      let w := print (LogSavedCsv csv_file_path) w in
      let json_data_cleaned := map pd.clean_record (pd.to_records df_properties) in
      match os.write_file json_file_path (JsonFile json_data_cleaned) w with
      | (w, Raise e) => (w, Raise e)
      | (w, Ok _) => (print (LogSavedJson json_file_path) w, Ok ())
      end
  end.

(** One of the two clean-up steps of the [except] block: the removal is
    tried only for a path that exists, and its own failure is reported
    and goes no further. *)
Definition cleanup (p : string) (cleaned failed : LogEvent) (w : World) : World :=
  if os.path_exists w p then
    match os.remove p w with
    | (w, Ok _) => print cleaned w
    | (w, Raise _) => print failed w
    end
  else w.

Definition csv_path_of (output_dir file_id : string) : string :=
  os.path_join output_dir (file_id +:+ ".csv").

Definition json_path_of (output_dir file_id : string) : string :=
  os.path_join output_dir (file_id +:+ ".json").

(** The block "Ensure output directory exists": whether the directory is
    there once the block is through. *)
Definition ensure_output_dir (output_dir file_id : string) (w : World)
  : World * bool :=
  if negb (os.path_exists w output_dir) then
    match os.makedirs output_dir w with
    | (w, Ok _) => (print (LogCreatedDir output_dir) w, true)
    | (w, Raise _) => (print (LogMkdirError output_dir file_id) w, false)
    end
  else (w, true).

(** [parse_ifc_to_files(ifc_file_path, output_dir, file_id)]: the pair
    [(csv_file_path, json_file_path)], or [(None, None)]. *)
Definition parse_ifc_to_files (ifc_file_path output_dir file_id : string)
    (w : World) : World * Exc (option string * option string) :=
  let w := print (LogStartParsing ifc_file_path file_id) w in
  match extract_properties_from_ifc ifc_file_path w with
  | (w, Raise e) => (w, Raise e)
  | (w, Ok df_properties) =>
      if pd.empty df_properties
      then (print (LogNoProperties ifc_file_path file_id) w, Ok (None, None))
      else
        let '(w, dir_ready) := ensure_output_dir output_dir file_id w in
        if negb dir_ready then (w, Ok (None, None))
        else
          let csv_file_path := csv_path_of output_dir file_id in
          let json_file_path := json_path_of output_dir file_id in
          match save_outputs csv_file_path json_file_path df_properties w with
          | (w, Ok _) => (w, Ok (Some csv_file_path, Some json_file_path))
          | (w, Raise _) =>
              let w := print (LogSaveError file_id ifc_file_path) w in
              let w := cleanup csv_file_path (LogCleanedCsv csv_file_path)
                         (LogDeleteCsvError csv_file_path) w in
              let w := cleanup json_file_path (LogCleanedJson json_file_path)
                         (LogDeleteJsonError json_file_path) w in
              (w, Ok (None, None))
          end
  end.

End ifc_parser.

(** ** app.py *)

Module app.

(** What the module-level configuration fixes: [app.config['CACHE_FOLDER']]
    and [os.path.relpath(., os.path.dirname(__file__))]. *)
Record Config : Type := {
  CACHE_FOLDER : string;
  relpath : string → string
}.

(** An entry of [uploaded_files_metadata]; the upload endpoint creates it
    with all of its keys. *)
Record FileInfo : Type := {
  original_filename : string;
  saved_path : string;
  schema : string;
  software : string;
  processed_data_df : option pd.DataFrame;
  cached_df_path : option string
}.

Definition set_processed_data_df (df : pd.DataFrame) (fi : FileInfo) : FileInfo :=
  {| original_filename := original_filename fi; saved_path := saved_path fi;
     schema := schema fi; software := software fi;
     processed_data_df := Some df; cached_df_path := cached_df_path fi |}.

Definition set_cached_df_path (p : string) (fi : FileInfo) : FileInfo :=
  {| original_filename := original_filename fi; saved_path := saved_path fi;
     schema := schema fi; software := software fi;
     processed_data_df := processed_data_df fi; cached_df_path := Some p |}.

(** [s.replace('-', '_')] *)
Fixpoint replace_dash (s : string) : string :=
  match s with
  | EmptyString => EmptyString
  | String c s' =>
      String (if bool_decide (c = "-"%char) then "_"%char else c) (replace_dash s')
  end.

(** The pickle of a file id: [f"{file_id.replace('-', '_')}_df.pkl"] under
    the cache folder. *)
Definition cache_path (cfg : Config) (file_id : string) : string :=
  os.path_join (CACHE_FOLDER cfg) (replace_dash file_id +:+ "_df.pkl").

(** [len(df) if not df.empty else 0] *)
Definition rows_or_0 (df : pd.DataFrame) : nat :=
  if pd.empty df then 0 else pd.len df.

(** First block of [process_single_ifc_file]: the pickle on disk.
    [Some df] is the early [return]; a failed read is caught, reported and
    answered with [None], like a path that is unset or does not exist. *)
Definition disk_tier (file_id : string) (file_info : FileInfo) (w : World)
  : World * FileInfo * option pd.DataFrame :=
  match cached_df_path file_info with
  | Some cached =>
      if negb (bool_decide (cached = "")) && os.path_exists w cached then
        match read_pickle w cached with
        | Ok df_properties =>
            (print (LogDiskCacheLoaded file_id (pd.len df_properties)) w,
             set_processed_data_df df_properties file_info,
             Some df_properties)
        | Raise _ => (print (LogDiskCacheError cached file_id) w, file_info, None)
        end
      else (w, file_info, None)
  | None => (w, file_info, None)
  end.

(** Second block: the table already attached to the entry. *)
Definition memory_tier (file_id : string) (file_info : FileInfo) (w : World)
  : World * option pd.DataFrame :=
  match processed_data_df file_info with
  | Some df_properties =>
      (print (LogUsingMemory file_id (rows_or_0 df_properties)) w, Some df_properties)
  | None => (w, None)
  end.

(** Third block: a fresh extraction.  [app_context] tells whether the
    caller's thread has a Flask application context: the [except] handler
    uses [current_app.logger], which raises [RuntimeError] without one. *)
Definition fresh_tier (app_context : bool) (cfg : Config) (file_id : string)
    (file_info : FileInfo) (w : World)
  : World * FileInfo * Exc pd.DataFrame :=
  let filepath := saved_path file_info in
  let w := print (LogLoadingFromIfc file_id) w in
  if negb (bool_decide (filepath = "")) && os.path_exists w filepath then
    match ifc_parser.extract_properties_from_ifc filepath w with
    | (w, Ok parsed_df) =>
        let w := print (LogDebugParsed file_id) w in
        let file_info := set_processed_data_df parsed_df file_info in
        let w := print (LogParsedOk file_id (rows_or_0 parsed_df)) w in
        if negb (pd.empty parsed_df) then
          let new_cache_filepath := cache_path cfg file_id in
          match os.write_file new_cache_filepath (PickleFile parsed_df) w with
          | (w, Ok _) =>
              (print (LogCachedToDisk new_cache_filepath) w,
               set_cached_df_path new_cache_filepath file_info,
               Ok parsed_df)
          | (w, Raise _) =>
              (print (LogPickleSaveError file_id) w, file_info, Ok parsed_df)
          end
        else (print (LogEmptyNotCached file_id) w, file_info, Ok parsed_df)
    | (w, Raise _) =>
        let w := print (LogParseError filepath file_id) w in
        if app_context
        then (print (LoggerParseError file_id filepath) w, file_info,
              Ok pd.DataFrame_new)
        else (w, file_info, Raise RuntimeError)
    end
  else (print (LogPathNotFound file_id filepath) w, file_info, Ok pd.DataFrame_new).

(** [process_single_ifc_file(file_id, file_info, app_config)]: the world
    and the entry as the call leaves them, and the returned triple. *)
Definition process_single_ifc_file (app_context : bool) (cfg : Config)
    (file_id : string) (file_info : FileInfo) (w : World)
  : World * FileInfo * Exc (string * string * pd.DataFrame) :=
  let filename := original_filename file_info in
  match disk_tier file_id file_info w with
  | (w, file_info, Some df_properties) =>
      (w, file_info, Ok (file_id, filename, df_properties))
  | (w, file_info, None) =>
      match memory_tier file_id file_info w with
      | (w, Some df_properties) =>
          (w, file_info, Ok (file_id, filename, df_properties))
      | (w, None) =>
          match fresh_tier app_context cfg file_id file_info w with
          | (w, file_info, Ok df_properties) =>
              (w, file_info, Ok (file_id, filename, df_properties))
          | (w, file_info, Raise e) => (w, file_info, Raise e)
          end
      end
  end.

(** *** The task table *)

Inductive Status : Type := pending | processing | completed | failed.

#[global] Instance Status_eq_dec : EqDecision Status.
Proof. solve_decision. Defined.

(** [parsing_status[file_id]['result']] when it is not [None]. *)
Record Result : Type := {
  csv_path : string;
  json_path : string
}.

Inductive ErrorText : Type :=
| NoOutputFiles            (* 'Parsing completed but no output files were generated.' *)
| ExceptionText (e : PyErr). (* [str(e)] *)

(** An entry of [parsing_status]. *)
Record Task : Type := {
  status : Status;
  task_filename : string;
  task_schema : string;
  task_software : string;
  task_saved_path : string;
  result : option Result;
  error : option ErrorText
}.

Definition set_status (s : Status) (t : Task) : Task :=
  {| status := s; task_filename := task_filename t; task_schema := task_schema t;
     task_software := task_software t; task_saved_path := task_saved_path t;
     result := result t; error := error t |}.

Definition set_result (r : option Result) (t : Task) : Task :=
  {| status := status t; task_filename := task_filename t; task_schema := task_schema t;
     task_software := task_software t; task_saved_path := task_saved_path t;
     result := r; error := error t |}.

Definition set_error (e : option ErrorText) (t : Task) : Task :=
  {| status := status t; task_filename := task_filename t; task_schema := task_schema t;
     task_software := task_software t; task_saved_path := task_saved_path t;
     result := result t; error := e |}.

(** The process-wide state: the world and the two registries. *)
Record AppState : Type := {
  world : World;
  uploaded_files_metadata : gmap string FileInfo;
  parsing_status : gmap string Task
}.

Definition with_world (w : World) (st : AppState) : AppState :=
  {| world := w; uploaded_files_metadata := uploaded_files_metadata st;
     parsing_status := parsing_status st |}.

Definition with_tasks (ts : gmap string Task) (st : AppState) : AppState :=
  {| world := world st; uploaded_files_metadata := uploaded_files_metadata st;
     parsing_status := ts |}.

(** *** [extract_data] *)

(** What [jsonify(...), code] carries. *)
Inductive Response : Type :=
| JsonData (code : nat) (message : string) (data : list pd.record)
| JsonError (code : nat) (error : string).

(** [file_id in parsing_status and parsing_status[file_id]['status'] == 'completed'] *)
Definition is_completed (st : AppState) (file_id : string) : bool :=
  match parsing_status st !! file_id with
  | Some t => bool_decide (status t = completed)
  | None => false
  end.

(** The first loop: one future per id that is completed and registered;
    every other id is reported and left out. *)
Definition submit (st : AppState) (acc : World * list string) (file_id : string)
  : World * list string :=
  let '(w, futures) := acc in
  if is_completed st file_id then
    match uploaded_files_metadata st !! file_id with
    | Some _ => (w, futures ++ [file_id])
    | None => (print (LogSkipNoMetadata file_id) w, futures)
    end
  else (print (LogSkipNotCompleted file_id) w, futures).

(** A future: the pool's thread runs [process_single_ifc_file] on the very
    dict of the registry, outside any application context.  The futures
    are run here one after the other, in the order of submission. *)
Definition run_future (cfg : Config)
    (acc : World * gmap string FileInfo * list (Exc (string * string * pd.DataFrame)))
    (file_id : string)
  : World * gmap string FileInfo * list (Exc (string * string * pd.DataFrame)) :=
  let '(w, metadata, results) := acc in
  match metadata !! file_id with
  | Some file_info =>
      let '(w, file_info, r) := process_single_ifc_file false cfg file_id file_info w in
      (w, <[file_id := file_info]> metadata, results ++ [r])
  | None => acc
  end.

(** The second loop, over [future.result()]. *)
Definition collect (acc : World * list pd.DataFrame * nat)
    (r : Exc (string * string * pd.DataFrame)) : World * list pd.DataFrame * nat :=
  let '(w, all_data_frames, processed_count) := acc in
  match r with
  | Ok (processed_file_id, processed_filename, df_properties) =>
      if negb (pd.empty df_properties) then
        (w,
         all_data_frames ++
           [pd.set_column "Source Model" (VStr processed_filename) df_properties],
         S processed_count)
      else (print (LogNoDataFrame processed_file_id) w, all_data_frames, processed_count)
  | Raise e => (print (LoggerThreadError e) w, all_data_frames, processed_count)
  end.

(** [df.fillna(value=pd.NA)]: every missing cell becomes the one missing
    marker, which the next line of the source turns into [None]. *)
Definition fillna (df : pd.DataFrame) : pd.DataFrame :=
  {| pd.columns := pd.columns df;
     pd.rows := map (map (λ v, if pd.isna v then VNone else v)) (pd.rows df) |}.

(** [extract_data()], on the [file_ids] of the request body ([None]: the
    body is missing or is not of that shape). *)
Definition extract_data (cfg : Config) (request : option (list string))
    (st : AppState) : AppState * Response :=
  match request with
  | None => (st, JsonError 400 "Missing or invalid 'file_ids' list in request body")
  | Some [] => (st, JsonError 400 "'file_ids' list cannot be empty")
  | Some file_ids =>
      let '(w, futures) := foldl (submit st) (world st, []) file_ids in
      let '(w, metadata, results) :=
        foldl (run_future cfg) (w, uploaded_files_metadata st, []) futures in
      let '(w, all_data_frames, processed_count) := foldl collect (w, [], 0) results in
      let st' := {| world := w; uploaded_files_metadata := metadata;
                    parsing_status := parsing_status st |} in
      match all_data_frames with
      | [] =>
          (st', JsonData 200
                  "No data extracted. Selected files might be empty or failed processing."
                  [])
      | _ =>
          let df_combined := pd.concat all_data_frames in
          let data_for_frontend :=
            map pd.clean_record (pd.to_records (fillna df_combined)) in
          (st', JsonData 200
                  ("Data extracted from " +:+ pretty processed_count
                   +:+ " file(s). Total records: "
                   +:+ pretty (length data_for_frontend) +:+ ".")
                  data_for_frontend)
      end
  end.

(** *** [parse_ifc_file_async], statement by statement *)

(** Where a worker thread stands in [parse_ifc_file_async]. *)
Inductive Pc : Type :=
| AtStart                                   (* before line 537 *)
| AtParse                                   (* lines 541-542 done *)
| AtBranch (r : Exc (option string * option string))  (* line 547 done *)
| AtSetResult (csv json : string)           (* line 550 done *)
| AtClearError (csv json : string)          (* line 551 done *)
| AtSetError (msg : ErrorText)              (* line 558 or 563 done *)
| Done.

(** [parsing_status[file_id][key] = value]; the entry exists whenever a
    worker runs this, as entries are never deleted. *)
Definition update_task (f : Task → Task) (file_id : string) (st : AppState)
  : AppState :=
  with_tasks (alter f file_id (parsing_status st)) st.

(** [if csv_path and json_path] *)
Definition both_paths (r : option string * option string) : option (string * string) :=
  match r with
  | (Some c, Some j) =>
      if negb (bool_decide (c = "")) && negb (bool_decide (j = ""))
      then Some (c, j) else None
  | _ => None
  end.

(** One statement (one assignment to the task table with the [print] that
    follows it, or the call of the parser) of the worker of [file_id]. *)
Definition worker_step (cfg : Config) (file_id ifc_file_path output_dir : string)
    (pc : Pc) (st : AppState) : Pc * AppState :=
  match pc with
  | AtStart =>
      match parsing_status st !! file_id with
      | None => (Done, with_world (print (LogAsyncNoTask file_id) (world st)) st)
      | Some _ =>
          let st := update_task (set_status processing) file_id st in
          (AtParse,
           with_world (print (LogAsyncStarted file_id ifc_file_path) (world st)) st)
      end
  | AtParse =>
      let '(w, r) :=
        ifc_parser.parse_ifc_to_files ifc_file_path output_dir file_id (world st) in
      (AtBranch r, with_world w st)
  | AtBranch (Ok r) =>
      match both_paths r with
      | Some (csv, json) =>
          (AtSetResult csv json, update_task (set_status completed) file_id st)
      | None =>
          (AtSetError NoOutputFiles, update_task (set_status failed) file_id st)
      end
  | AtBranch (Raise e) =>
      (AtSetError (ExceptionText e), update_task (set_status failed) file_id st)
  | AtSetResult csv json =>
      (AtClearError csv json,
       update_task
         (set_result (Some {| csv_path := relpath cfg csv;
                              json_path := relpath cfg json |}))
         file_id st)
  | AtClearError csv json =>
      let st := update_task (set_error None) file_id st in
      (Done, with_world (print (LogAsyncCompleted file_id csv json) (world st)) st)
  | AtSetError msg =>
      let st := update_task (set_error (Some msg)) file_id st in
      (Done,
       with_world
         (print (match msg with
                 | NoOutputFiles => LogAsyncFailed file_id
                 | ExceptionText e => LogAsyncException file_id e
                 end) (world st)) st)
  | Done => (Done, st)
  end.

(** The worker run to its end: no path through the function takes more
    than five statements. *)
Definition parse_ifc_file_async (cfg : Config)
    (file_id ifc_file_path output_dir : string) (st : AppState) : Pc * AppState :=
  Nat.iter 5 (λ ps, worker_step cfg file_id ifc_file_path output_dir ps.1 ps.2)
           (AtStart, st).

(** *** The running server *)

(** A worker thread: the arguments it was started with and where it
    stands. *)
Record Worker : Type := {
  worker_path : string;
  worker_output_dir : string;
  worker_pc : Pc
}.

Record Server : Type := {
  state : AppState;
  workers : gmap string Worker
}.

(** What [upload_ifc_files] registers for one accepted file. *)
Definition new_task (filename filepath schema software : string) : Task :=
  {| status := pending; task_filename := filename; task_schema := schema;
     task_software := software; task_saved_path := filepath;
     result := None; error := None |}.

Definition new_file_info (filename filepath schema software : string) : FileInfo :=
  {| original_filename := filename; saved_path := filepath;
     schema := schema; software := software;
     processed_data_df := None; cached_df_path := None |}.

(** [if fname:] on the file name [extract_ifc_metadata] reads from the
    header of the saved file. *)
Definition has_metadata (m : IfcModel) : bool :=
  match header_file_name m with
  | Ok (Some name) => truthy name
  | Ok None => true
  | Raise _ => false
  end.

Definition register (cfg : Config) (file_id filename filepath schema software : string)
    (m : IfcModel) (sv : Server) : Server :=
  {| state :=
       {| world := with_files (<[filepath := IfcFile m]> (files (world (state sv))))
                              (world (state sv));
          uploaded_files_metadata :=
            <[file_id := new_file_info filename filepath schema software]>
              (uploaded_files_metadata (state sv));
          parsing_status :=
            <[file_id := new_task filename filepath schema software]>
              (parsing_status (state sv)) |};
     workers :=
       <[file_id := {| worker_path := filepath;
                       worker_output_dir := CACHE_FOLDER cfg;
                       worker_pc := AtStart |}]> (workers sv) |}.

Definition advance (cfg : Config) (file_id : string) (wk : Worker) (sv : Server)
  : Server :=
  let '(pc, st) :=
    worker_step cfg file_id (worker_path wk) (worker_output_dir wk)
                (worker_pc wk) (state sv) in
  {| state := st;
     workers := <[file_id := {| worker_path := worker_path wk;
                                worker_output_dir := worker_output_dir wk;
                                worker_pc := pc |}]> (workers sv) |}.

(** The moves of the server: an upload saves a model file, registers it
    under a fresh [uuid4] and starts its worker; a worker executes its next statement;
    an [extract_data] request is served.  Threads interleave between
    statements. *)
Inductive step (cfg : Config) : Server → Server → Prop :=
| step_upload sv file_id filename filepath schema software m :
    parsing_status (state sv) !! file_id = None →
    workers sv !! file_id = None →
    has_metadata m = true →
    step cfg sv (register cfg file_id filename filepath schema software m sv)
| step_worker sv file_id wk :
    workers sv !! file_id = Some wk →
    worker_pc wk ≠ Done →
    step cfg sv (advance cfg file_id wk sv)
| step_extract sv request :
    step cfg sv {| state := (extract_data cfg request (state sv)).1;
                   workers := workers sv |}.

(** The server at start-up: both registries empty, no thread. *)
Definition boot (w : World) : Server :=
  {| state := {| world := w; uploaded_files_metadata := ∅; parsing_status := ∅ |};
     workers := ∅ |}.

Inductive reachable (cfg : Config) (w : World) : Server → Prop :=
| reachable_boot : reachable cfg w (boot w)
| reachable_step sv sv' :
    reachable cfg w sv → step cfg sv sv' → reachable cfg w sv'.

(** *** [allowed_file] *)

(** [c in s] for a character [c]. *)
Fixpoint str_contains (c : ascii) (s : string) : bool :=
  match s with
  | EmptyString => false
  | String c' s' => bool_decide (c' = c) || str_contains c s'
  end.

(** [s.rsplit('.', 1)]: the parts before and after the last dot, or [s]
    alone when it holds no dot. *)
Fixpoint rsplit_dot (s : string) : list string :=
  match s with
  | EmptyString => [EmptyString]
  | String c s' =>
      match rsplit_dot s' with
      | [stem; ext] => [String c stem; ext]
      | _ => if bool_decide (c = "."%char) then [EmptyString; s']
             else [String c s']
      end
  end.

(** [s.lower()] on the letters of ASCII; the characters beyond are left
    alone, none of them lowers to a letter of an allowed extension. *)
Definition lower_char (c : ascii) : ascii :=
  let n := N_of_ascii c in
  if (65 <=? n)%N && (n <=? 90)%N then ascii_of_N (n + 32) else c.

Fixpoint lower (s : string) : string :=
  match s with
  | EmptyString => EmptyString
  | String c s' => String (lower_char c) (lower s')
  end.

Definition ALLOWED_EXTENSIONS : list string := ["ifc"].

(** [allowed_file(filename)]; the index [[1]] is guarded by the test for a
    dot, which [and] evaluates first. *)
Definition allowed_file (filename : string) : bool :=
  str_contains "."%char filename
  && match rsplit_dot filename !! 1 with
     | Some ext => bool_decide (lower ext ∈ ALLOWED_EXTENSIONS)
     | None => false
     end.

(** *** [generate_graph] *)

(** What the endpoint answers: an error with its code, the 500 of the
    outer handler (its text ends with [str(e)]), or the 200 with a message
    and the URL of the picture, if one was drawn. *)
Inductive GraphResponse : Type :=
| GraphError (code : nat) (error : string)
| GraphUnexpected (e : PyErr)
| GraphAnswer (message : string) (graph_path : option string).

(** The line the outer handler writes with [current_app.logger.error]. *)
Inductive GraphLog : Type :=
| LoggerGraphError (e : PyErr).

(** [pd.notna] *)
Definition notna (v : Val) : bool := negb (pd.isna v).

(** [s.replace('\\', '/')] *)
Fixpoint replace_backslash (s : string) : string :=
  match s with
  | EmptyString => EmptyString
  | String c s' =>
      String (if bool_decide (c = "\"%char) then "/"%char else c)
             (replace_backslash s')
  end.

Definition GRAPHS_SUBDIR : string := "graphs".

Section generate_graph.

(** Left open: [str(v)] of a cell; the drawing of the figure, titled with
    the file name, and its saving under a path (lines 506 to 514); and
    [GRAPHS_FOLDER], which depends on where the backend is installed. *)
Variable py_str : Val → string.
Variable draw_and_save : nx.DiGraph → string → string → World → World * Exc unit.
Variable GRAPHS_FOLDER : string.

(** The body of [for _, row in df_properties.iterrows()]. *)
Definition graph_row (df : pd.DataFrame) (G : nx.DiGraph) (row : list Val)
  : nx.DiGraph :=
  let entity := default VNaN (pd.cell df row "IfcEntity") in
  let pset := default VNaN (pd.cell df row "PropertySet") in
  if notna entity && notna pset then
    let G := nx.add_node G (py_str entity) {[ "type" := VStr "IfcEntity" ]} in
    let G := nx.add_node G (py_str pset) {[ "type" := VStr "PropertySet" ]} in
    nx.add_edge G (py_str entity) (py_str pset) ∅
  else G.

(** The graph the endpoint draws: entity to property set, when the table
    has both columns. *)
Definition property_graph (df : pd.DataFrame) : nx.DiGraph :=
  if bool_decide ("IfcEntity" ∈ pd.columns df)
     && bool_decide ("PropertySet" ∈ pd.columns df)
  then foldl (graph_row df) nx.empty (pd.rows df)
  else nx.empty.

(** [generate_graph()], on the [file_id] of the request body ([None]: the
    body is missing or holds no string under that key).  The handler runs
    in the thread of the request, inside the application context, on the
    very dict of the registry. *)
Definition generate_graph (cfg : Config) (request : option string)
    (st : AppState) : AppState * list GraphLog * GraphResponse :=
  match request with
  | None =>
      (st, [], GraphError 400 "Missing or invalid 'file_id' (string) in request body")
  | Some file_id =>
      if bool_decide (file_id = "")
      then (st, [], GraphError 400 "'file_id' cannot be empty")
      else
        let not_found :=
          GraphError 404 ("File ID " +:+ file_id
                          +:+ " not found, not processed, or metadata missing.") in
        if negb (is_completed st file_id) then (st, [], not_found)
        else
          match uploaded_files_metadata st !! file_id with
          | None => (st, [], not_found)
          | Some file_info =>
              let '(w, file_info, r) :=
                process_single_ifc_file true cfg file_id file_info (world st) in
              let st := {| world := w;
                           uploaded_files_metadata :=
                             <[file_id := file_info]> (uploaded_files_metadata st);
                           parsing_status := parsing_status st |} in
              match r with
              | Raise e => (st, [LoggerGraphError e], GraphUnexpected e)
              | Ok (_, filename, df_properties) =>
                  if pd.empty df_properties then
                    (st, [],
                     GraphError 400 ("No data available for file " +:+ filename
                                     +:+ " (ID: " +:+ file_id
                                     +:+ ") to generate graph."))
                  else
                    let G := property_graph df_properties in
                    if bool_decide (nx.number_of_nodes G = 0) then
                      (st, [],
                       GraphAnswer ("No graph data (nodes/edges) could be generated for "
                                    +:+ filename +:+ ".") None)
                    else
                      let graph_filename :=
                        "graph_" +:+ replace_dash file_id +:+ ".png" in
                      let graph_file_path := os.path_join GRAPHS_FOLDER graph_filename in
                      match draw_and_save G filename graph_file_path w with
                      | (w, Raise e) =>
                          (with_world w st, [LoggerGraphError e], GraphUnexpected e)
                      | (w, Ok _) =>
                          let relative_graph_path :=
                            replace_backslash
                              (os.path_join GRAPHS_SUBDIR graph_filename) in
                          (with_world w st, [],
                           GraphAnswer ("Graph generated successfully for "
                                        +:+ filename +:+ ".")
                                       (Some ("/generated_content/"
                                              +:+ relative_graph_path)))
                      end
              end
          end
  end.

End generate_graph.

End app.

(** ** Sample models and worlds *)

Module sample.

Definition rooted (guid name : Val) : list (string * Val) :=
  [("GlobalId", guid); ("OwnerHistory", VNone); ("Name", name);
   ("Description", VNone)].

(** [IFCLABEL('Brick')] and the like. *)
Definition wrapped (ty : string) (v : Val) : Val :=
  VEnt (Ent 0 ty [] [("wrappedValue", v)]).

Definition single_value (i : Z) (name : string) (v : Val) : Val :=
  VEnt (Ent i "IfcPropertySingleValue" ["IfcSimpleProperty"; "IfcProperty"]
          [("Name", VStr name); ("Description", VNone);
           ("NominalValue", v); ("Unit", VNone)]).

Definition wall_common : Val :=
  VEnt (Ent 21 "IfcPropertySet"
          ["IfcPropertySetDefinition"; "IfcPropertyDefinition"; "IfcRoot"]
          (rooted (VStr "2LnVqkW5zBJxc1dT0ghT5q") (VStr "Pset_WallCommon") ++
           [("HasProperties",
             VList [single_value 22 "IsExternal" (wrapped "IfcBoolean" (VBool true));
                    single_value 23 "Reference" (wrapped "IfcLabel" (VStr "Brick"));
                    single_value 24 "FireRating" VNone])])).

Definition defines_wall_common : Val :=
  VEnt (Ent 25 "IfcRelDefinesByProperties"
          ["IfcRelDefines"; "IfcRelationship"; "IfcRoot"]
          (rooted (VStr "0ouqFpGb9Fzv4lzX3XcT4y") VNone ++
           [("RelatingPropertyDefinition", wall_common)])).

Definition product_supers : list string :=
  ["IfcProduct"; "IfcObject"; "IfcObjectDefinition"; "IfcRoot"].

Definition E1 : Entity :=
  Ent 11 "IfcWall" (["IfcBuildingElement"; "IfcElement"] ++ product_supers)
    (rooted (VStr "E1") (VStr "Wall-001") ++
     [("IsDefinedBy", VList [defines_wall_common])]).

Definition S1 : Entity :=
  Ent 12 "IfcBuildingStorey"
    (["IfcSpatialStructureElement"; "IfcSpatialElement"] ++ product_supers)
    (rooted (VStr "S1") (VStr "Level 1")).

(** A product the file gives no [GlobalId]. *)
Definition anonymous : Entity :=
  Ent 13 "IfcDoor" (["IfcBuildingElement"; "IfcElement"] ++ product_supers)
    (rooted VNone (VStr "Door-001")).

(** [E1] contained in [S1]. *)
Definition containment (i : Z) (guid : string) (name : Val) : Entity :=
  Ent i "IfcRelContainedInSpatialStructure"
    ["IfcRelConnects"; "IfcRelationship"; "IfcRoot"]
    (rooted (VStr guid) name ++
     [("RelatedElements", VList [VEnt E1]); ("RelatingStructure", VEnt S1)]).

(** The door, which gets no node, contained in [S1]. *)
Definition dangling : Entity :=
  Ent 33 "IfcRelContainedInSpatialStructure"
    ["IfcRelConnects"; "IfcRelationship"; "IfcRoot"]
    (rooted (VStr "R3") VNone ++
     [("RelatedElements", VList [VEnt anonymous]); ("RelatingStructure", VEnt S1)]).

Definition model_of (l : list Entity) : IfcModel :=
  {| header_file_name := Ok (Some (VStr "house.ifc")); instances := l |}.

(** One containment relation, unnamed in the file. *)
Definition one_containment : IfcModel :=
  model_of [E1; S1; containment 31 "R1" VNone].

(** One containment relation that the file names. *)
Definition named_containment : IfcModel :=
  model_of [E1; S1; containment 31 "R1" (VStr "Storey container")].

(** Two relationship records for the same ordered pair. *)
Definition twice_contained : IfcModel :=
  model_of [E1; S1; containment 31 "R1" (VStr "first");
            containment 32 "R2" (VStr "second")].

(** A relation whose element was skipped by the node pass. *)
Definition with_dangling : IfcModel :=
  model_of [E1; S1; anonymous; containment 31 "R1" VNone; dangling].

(** A model without any element. *)
Definition bare : IfcModel := model_of [].

Definition no_faults (fs : gmap string FileData) : World :=
  {| files := fs; dirs := {["cache"; "uploads"]} ; stdout := [];
     write_fault := λ _, WriteOk; remove_fails := λ _, false;
     makedirs_fails := λ _, false |}.

Definition disk : gmap string FileData :=
  <["uploads/house.ifc" := IfcFile one_containment]>
  (<["uploads/named.ifc" := IfcFile named_containment]>
   (<["uploads/twice.ifc" := IfcFile twice_contained]>
    (<["uploads/dangling.ifc" := IfcFile with_dangling]>
     (<["uploads/bare.ifc" := IfcFile bare]>
      (<["uploads/broken.ifc" := Truncated]> ∅))))).

Definition world : World := no_faults disk.

Definition cfg : app.Config :=
  {| app.CACHE_FOLDER := "cache"; app.relpath := λ p, p |}.

Definition house_id : string := "0f8fad5b-d9cb-469f-a165-70867728950e".
Definition bare_id : string := "7c9e6679-7425-40de-944b-e07fc1f90ae7".

(** The entries the upload registers for [house.ifc] and [bare.ifc]. *)
Definition house_info : app.FileInfo :=
  app.new_file_info "house.ifc" "uploads/house.ifc" "IFC4" "Unknown".

Definition bare_info : app.FileInfo :=
  app.new_file_info "bare.ifc" "uploads/bare.ifc" "IFC4" "Unknown".

(** The registries once [house.ifc] was uploaded and parsed. *)
Definition house_task : app.Task :=
  {| app.status := app.completed; app.task_filename := "house.ifc";
     app.task_schema := "IFC4"; app.task_software := "Unknown";
     app.task_saved_path := "uploads/house.ifc";
     app.result :=
       Some {| app.csv_path := "cache/0f8fad5b-d9cb-469f-a165-70867728950e.csv";
               app.json_path := "cache/0f8fad5b-d9cb-469f-a165-70867728950e.json" |};
     app.error := None |}.

Definition served : app.AppState :=
  {| app.world := world;
     app.uploaded_files_metadata := {[ house_id := house_info ]};
     app.parsing_status := {[ house_id := house_task ]} |}.

(** An id no upload ever returned. *)
Definition unknown_id : string := "00000000-0000-4000-8000-000000000000".

(** The artifacts of [house.ifc]. *)
Definition house_csv : string := "cache/0f8fad5b-d9cb-469f-a165-70867728950e.csv".
Definition house_json : string := "cache/0f8fad5b-d9cb-469f-a165-70867728950e.json".

(** A world in which the JSON of [house.ifc] cannot be opened for writing;
    [locked] tells whether removals are refused as well. *)
Definition json_refused (locked : bool) : World :=
  {| files := disk; dirs := {["cache"; "uploads"]}; stdout := [];
     write_fault := λ p, if String.eqb p house_json then WriteRefused else WriteOk;
     remove_fails := λ _, locked;
     makedirs_fails := λ _, false |}.

(** The table of [house.ifc]. *)
Definition house_table : pd.DataFrame :=
  Eval vm_compute in
    match ifc_parser.extract_properties_from_ifc "uploads/house.ifc" world with
    | (_, Ok df) => df
    | (_, Raise _) => pd.DataFrame_new
    end.

(** The scheduler lets the worker of [file_id] execute its next statement. *)
Definition run_worker (file_id : string) (sv : app.Server) : app.Server :=
  match app.workers sv !! file_id with
  | Some wk => app.advance cfg file_id wk sv
  | None => sv
  end.

(** [house.ifc] has just been uploaded. *)
Definition uploaded : app.Server :=
  app.register cfg house_id "house.ifc" "uploads/house.ifc" "IFC4" "Unknown"
    one_containment (app.boot world).

(** Its worker has executed lines 537 to 550 of [app.py]. *)
Definition after_line_550 : app.Server :=
  run_worker house_id (run_worker house_id (run_worker house_id uploaded)).

(** The graph of [dangling.ifc]. *)
Definition dangling_graph : nx.DiGraph :=
  Eval vm_compute in
    match graph_builder.build_graph with_dangling with
    | Ok (G, _) => G
    | Raise _ => nx.empty
    end.

(** A wall whose only definition is its type; IFC2X3 lists that relation
    under [IsDefinedBy] too. *)
Definition defines_by_type : Entity :=
  Ent 26 "IfcRelDefinesByType"
    ["IfcRelDefines"; "IfcRelationship"; "IfcRoot"]
    (rooted (VStr "R4") VNone ++ [("RelatingType", VNone)]).

Definition typed_wall : Entity :=
  Ent 14 "IfcWall" (["IfcBuildingElement"; "IfcElement"] ++ product_supers)
    (rooted (VStr "E2") (VStr "Wall-002") ++
     [("IsDefinedBy", VList [VEnt defines_by_type])]).

(** Elements, none of which carries a property set. *)
Definition without_psets : IfcModel := model_of [typed_wall; S1; anonymous].

(** A property set the file leaves without its properties ([$]). *)
Definition hollow_pset : Val :=
  VEnt (Ent 27 "IfcPropertySet"
          ["IfcPropertySetDefinition"; "IfcPropertyDefinition"; "IfcRoot"]
          (rooted (VStr "P2") (VStr "Pset_Hollow") ++ [("HasProperties", VNone)])).

Definition hollow_wall : Entity :=
  Ent 15 "IfcWall" (["IfcBuildingElement"; "IfcElement"] ++ product_supers)
    (rooted (VStr "E3") (VStr "Wall-003") ++
     [("IsDefinedBy",
       VList [VEnt (Ent 28 "IfcRelDefinesByProperties"
                      ["IfcRelDefines"; "IfcRelationship"; "IfcRoot"]
                      (rooted (VStr "R5") VNone ++
                       [("RelatingPropertyDefinition", hollow_pset)]))])]).

Definition with_hollow_pset : IfcModel := model_of [E1; hollow_wall].

(** A disk that holds one model, under [uploads/model.ifc]. *)
Definition holding (m : IfcModel) : World :=
  no_faults {[ "uploads/model.ifc" := IfcFile m ]}.

End sample.

(** * Properties *)

(** ** Loops that may raise *)

Section loops.
Context {A S : Type} (P : S → Prop).

Lemma for_each_invariant (body : S → A → Exc S) xs s s' :
  (∀ s x s', body s x = Ok s' → P s → P s') →
  for_each body xs s = Ok s' → P s → P s'.
Proof.
  intros Hbody. revert s. induction xs as [|x xs IH]; intros s Hrun Hs; simpl in Hrun.
  - by injection Hrun as <-.
  - destruct (body s x) as [s1|e] eqn:Hb; simpl in Hrun; [|done].
    eapply IH; [done|]. by eapply Hbody.
Qed.

Lemma foldl_invariant (f : S → A → S) xs s :
  (∀ s x, P s → P (f s x)) → P s → P (foldl f s xs).
Proof.
  intros Hf. revert s. induction xs as [|x xs IH]; intros s Hs; simpl; auto.
Qed.
End loops.

(** ** The relationship graph *)

Section graph.
Import graph_builder.

(** Every edge joins two nodes of the graph. *)
Definition edges_closed (G : nx.DiGraph) : Prop :=
  ∀ u v a, nx.edges G !! (u, v) = Some a →
           is_Some (nx.nodes G !! u) ∧ is_Some (nx.nodes G !! v).

Lemma has_node_Some G n :
  nx.has_node G n = true → ∃ k, n = Some k ∧ is_Some (nx.nodes G !! k).
Proof.
  destruct n as [k|]; simpl; [|done].
  intros H%bool_decide_eq_true. eauto.
Qed.

Lemma add_edge_nodes G u v a :
  is_Some (nx.nodes G !! u) → is_Some (nx.nodes G !! v) →
  nx.nodes (nx.add_edge G u v a) = nx.nodes G.
Proof.
  intros [x Hu] [y Hv]. unfold nx.add_edge; simpl. by rewrite Hu, Hv.
Qed.

Lemma add_relationship_edge_nodes G src tgt rel lbl :
  nx.nodes (add_relationship_edge G src tgt rel lbl).1 = nx.nodes G.
Proof.
  unfold add_relationship_edge.
  destruct (negb _); [done|].
  destruct (nx.has_node G _ && nx.has_node G _) eqn:Hn; [|done].
  apply andb_true_iff in Hn as [Hs Ht].
  apply has_node_Some in Hs as (u & -> & Hu).
  apply has_node_Some in Ht as (v & -> & Hv).
  cbn [fst]. by apply add_edge_nodes.
Qed.

Lemma add_relationship_edge_closed G src tgt rel lbl :
  edges_closed G → edges_closed (add_relationship_edge G src tgt rel lbl).1.
Proof.
  intros HG. unfold add_relationship_edge.
  destruct (negb _); [done|].
  destruct (nx.has_node G _ && nx.has_node G _) eqn:Hn; [|done].
  apply andb_true_iff in Hn as [Hs Ht].
  apply has_node_Some in Hs as (u & -> & Hu).
  apply has_node_Some in Ht as (v & -> & Hv).
  cbn [fst]. intros u' v' a'. rewrite add_edge_nodes by done.
  unfold nx.add_edge; simpl. intros Hl.
  destruct (decide ((u, v) = (u', v'))) as [[= <- <-]|Hne]; [done|].
  rewrite lookup_insert_ne in Hl by done. by eapply HG.
Qed.

(** An edge is added only between two nodes that are there already. *)
Lemma add_relationship_edge_dropped G src tgt rel lbl :
  nx.has_node G (as_guid (getattr src "GlobalId" VNone))
  && nx.has_node G (as_guid (getattr tgt "GlobalId" VNone)) = false →
  add_relationship_edge G src tgt rel lbl = (G, false).
Proof.
  intros Hn. unfold add_relationship_edge.
  destruct (negb _); [done|]. by rewrite Hn.
Qed.

(** What the edge loops keep: the nodes of the first pass, and edges
    between them only. *)
Definition edge_pass_inv (N : gmap string nx.attr_dict) (st : BuildState) : Prop :=
  nx.nodes st.1 = N ∧ edges_closed st.1.

Lemma count_edge_inv N G src tgt rel lbl n :
  edge_pass_inv N (G, n) →
  edge_pass_inv N (count_edge (add_relationship_edge G src tgt rel lbl) n).
Proof.
  intros [HN HG]. split; simpl.
  - by rewrite add_relationship_edge_nodes.
  - by apply add_relationship_edge_closed.
Qed.

Ltac open_step H :=
  repeat match type of H with
    | context [mbind _ ?m] =>
        let E := fresh "E" in destruct m eqn:E; simpl in H; [|done]
    | (if ?b then _ else _) = _ => destruct b
    end.

Lemma contained_step_inv N st rel st' :
  contained_step st rel = Ok st' → edge_pass_inv N st → edge_pass_inv N st'.
Proof.
  unfold contained_step. intros H Hst. open_step H. injection H as <-.
  apply (foldl_invariant (edge_pass_inv N)); [|done].
  intros [G n] x HG. by apply count_edge_inv.
Qed.

Lemma aggregates_step_inv N st rel st' :
  aggregates_step st rel = Ok st' → edge_pass_inv N st → edge_pass_inv N st'.
Proof.
  unfold aggregates_step. intros H Hst. open_step H. injection H as <-.
  apply (foldl_invariant (edge_pass_inv N)); [|done].
  intros [G n] x HG. by apply count_edge_inv.
Qed.

Lemma connects_step_inv N st rel st' :
  connects_step st rel = Ok st' → edge_pass_inv N st → edge_pass_inv N st'.
Proof.
  unfold connects_step. intros H Hst. open_step H; injection H as <-; [|done].
  destruct st as [G n]. by apply count_edge_inv.
Qed.

Lemma voids_step_inv N st rel st' :
  voids_step st rel = Ok st' → edge_pass_inv N st → edge_pass_inv N st'.
Proof.
  unfold voids_step. intros H Hst. open_step H. injection H as <-.
  destruct st as [G n]. by apply count_edge_inv.
Qed.

Lemma fills_step_inv N st rel st' :
  fills_step st rel = Ok st' → edge_pass_inv N st → edge_pass_inv N st'.
Proof.
  unfold fills_step. intros H Hst. open_step H. injection H as <-.
  destruct st as [G n]. by apply count_edge_inv.
Qed.

Lemma populate_edges_inv m G st :
  populate_edges m G = Ok st → edges_closed G → edge_pass_inv (nx.nodes G) st.
Proof.
  unfold populate_edges. intros H HG.
  assert (edge_pass_inv (nx.nodes G) (G, 0)) as H0 by done.
  destruct (for_each contained_step _ _) as [s1|] eqn:E1; simpl in H; [|done].
  destruct (for_each aggregates_step _ _) as [s2|] eqn:E2; simpl in H; [|done].
  destruct (for_each connects_step _ _) as [s3|] eqn:E3; simpl in H; [|done].
  destruct (for_each voids_step _ _) as [s4|] eqn:E4; simpl in H; [|done].
  pose proof (for_each_invariant (A:=Entity) (edge_pass_inv (nx.nodes G))) as Hloop.
  apply Hloop in E1; [|apply contained_step_inv|done].
  apply Hloop in E2; [|apply aggregates_step_inv|done].
  apply Hloop in E3; [|apply connects_step_inv|done].
  apply Hloop in E4; [|apply voids_step_inv|done].
  apply Hloop in H; [done|apply fills_step_inv|done].
Qed.

Lemma add_product_node_edges G item :
  nx.edges (add_product_node G item) = nx.edges G.
Proof.
  unfold add_product_node.
  destruct (attr _ _); [|done]. destruct (negb _); [done|].
  by destruct (as_guid _).
Qed.

Lemma populate_nodes_edges m : nx.edges (populate_nodes m) = ∅.
Proof.
  unfold populate_nodes.
  apply (foldl_invariant (λ G, nx.edges G = ∅)); [|done].
  intros G x HG. by rewrite add_product_node_edges.
Qed.

Lemma build_graph_inv m G n :
  build_graph m = Ok (G, n) →
  nx.nodes G = nx.nodes (populate_nodes m) ∧ edges_closed G.
Proof.
  intros H. apply populate_edges_inv in H; [done|].
  intros u v a. by rewrite populate_nodes_edges.
Qed.

End graph.

Section graph_claims.
Import graph_builder.





(** C4: in every graph that [build_graph_from_ifc] returns, both
    endpoints of every edge are nodes of that graph; the nodes are exactly
    those of the node pass, so no node is created to host an edge; and the
    helper leaves the graph as it is, answering [False], whenever an
    endpoint is not a node, which is how the edge of a skipped element is
    dropped. *)
Theorem build_edges_join_nodes ifc_file_path w G :
  build_graph_from_ifc ifc_file_path w = Ok (Some G) →
  ∃ m, ifcopenshell_open w ifc_file_path = Ok m
    ∧ (∀ u v a, nx.edges G !! (u, v) = Some a →
                is_Some (nx.nodes G !! u) ∧ is_Some (nx.nodes G !! v))
    ∧ nx.nodes G = nx.nodes (populate_nodes m)
    ∧ (∀ G0 src tgt rel lbl,
         nx.has_node G0 (as_guid (getattr src "GlobalId" VNone))
         && nx.has_node G0 (as_guid (getattr tgt "GlobalId" VNone)) = false →
         add_relationship_edge G0 src tgt rel lbl = (G0, false)).
Proof.
  unfold build_graph_from_ifc. intros H.
  destruct (ifcopenshell_open w ifc_file_path) as [m|] eqn:Hopen; [|done].
  destruct (build_graph m) as [[G' n]|] eqn:Hb; simpl in H; [|done].
  injection H as <-. apply build_graph_inv in Hb as [HN HG].
  exists m. split_and!; [done|exact HG|exact HN|].
  intros. by apply add_relationship_edge_dropped.
Qed.

(** The model with a relation to a skipped door builds, and the statement
    above applies to its graph. *)
Lemma build_edges_join_nodes_witness :
  ∃ m, ifcopenshell_open sample.world "uploads/dangling.ifc" = Ok m
    ∧ (∀ u v a, nx.edges sample.dangling_graph !! (u, v) = Some a →
                is_Some (nx.nodes sample.dangling_graph !! u)
                ∧ is_Some (nx.nodes sample.dangling_graph !! v))
    ∧ nx.nodes sample.dangling_graph = nx.nodes (populate_nodes m)
    ∧ (∀ G0 src tgt rel lbl,
         nx.has_node G0 (as_guid (getattr src "GlobalId" VNone))
         && nx.has_node G0 (as_guid (getattr tgt "GlobalId" VNone)) = false →
         add_relationship_edge G0 src tgt rel lbl = (G0, false)).
Proof.
  apply (build_edges_join_nodes "uploads/dangling.ifc" sample.world
           sample.dangling_graph).
  vm_compute. reflexivity.
Defined.








End graph_claims.

(** ** The property extractor *)

Section extractor.
Import ifc_parser.




(** Worlds that differ in what was printed only. *)
Definition same_disk (w w' : World) : Prop :=
  files w = files w' ∧ dirs w = dirs w'
  ∧ write_fault w = write_fault w' ∧ remove_fails w = remove_fails w'
  ∧ makedirs_fails w = makedirs_fails w'.

#[global] Instance same_disk_equiv : Equivalence same_disk.
Proof.
  split.
  - by intros w.
  - intros w w' (?&?&?&?&?). by split_and!.
  - intros w1 w2 w3 (?&?&?&?&?) (?&?&?&?&?). split_and!; congruence.
Qed.

Lemma same_disk_print e w : same_disk w (print e w).
Proof. done. Qed.

Lemma extract_same_disk p w : same_disk w (extract_properties_from_ifc p w).1.
Proof.
  unfold extract_properties_from_ifc.
  destruct (ifcopenshell_open w p) as [m|]; [|done].
  destruct (header_file_name m) as [[name|]|];
    destruct (extracted_data_list m); simpl; try done;
    destruct (negb _); try done; by destruct (pd.select _ _).
Qed.

(** The table depends on the files only. *)
Lemma extract_result_same_disk p w w' :
  same_disk w w' →
  (extract_properties_from_ifc p w).2 = (extract_properties_from_ifc p w').2.
Proof.
  intros (Hf&_). unfold extract_properties_from_ifc, ifcopenshell_open.
  rewrite <-Hf. destruct (files w !! p) as [[m| | | |]|]; try done.
  destruct (header_file_name m) as [[name|]|];
    destruct (extracted_data_list m); simpl; try done;
    destruct (negb _); try done; by destruct (pd.select _ _).
Qed.

End extractor.

(** ** The cache of tables *)

Section cache.
Import app.

(** The entry names a pickle that is on disk and holds [df]. *)
Definition persisted (w : World) (file_info : FileInfo) (df : pd.DataFrame) : Prop :=
  ∃ p, cached_df_path file_info = Some p ∧ p ≠ ""
       ∧ files w !! p = Some (PickleFile df).

Definition nothing_persisted (w : World) (file_info : FileInfo) : Prop :=
  ∀ df, ¬ persisted w file_info df.

(** The world after the first block found nothing: a path that is set and
    exists but cannot be unpickled leaves one line on the console. *)
Definition after_disk_miss (file_id : string) (file_info : FileInfo) (w : World)
  : World :=
  match cached_df_path file_info with
  | Some p =>
      if negb (bool_decide (p = "")) && os.path_exists w p
      then print (LogDiskCacheError p file_id) w
      else w
  | None => w
  end.

Lemma disk_tier_hit file_id file_info w df :
  persisted w file_info df →
  disk_tier file_id file_info w
  = (print (LogDiskCacheLoaded file_id (pd.len df)) w,
     set_processed_data_df df file_info, Some df).
Proof.
  intros (p & Hp & Hne & Hf). unfold disk_tier, os.path_exists, read_pickle.
  rewrite Hp, Hf. rewrite bool_decide_eq_false_2 by done.
  rewrite (bool_decide_eq_true_2 (is_Some _)) by eauto. done.
Qed.

Lemma disk_tier_miss file_id file_info w :
  nothing_persisted w file_info →
  disk_tier file_id file_info w = (after_disk_miss file_id file_info w, file_info, None).
Proof.
  intros Hno. unfold disk_tier, after_disk_miss.
  destruct (cached_df_path file_info) as [p|] eqn:Hp; [|done].
  destruct (negb _ && _) eqn:Hc; [|done].
  unfold read_pickle.
  destruct (files w !! p) as [[| df | | |]|] eqn:Hf; try done.
  destruct (Hno df). exists p. split_and!; [done| |done].
  apply andb_true_iff in Hc as [Hc _]. apply negb_true_iff in Hc.
  by apply bool_decide_eq_false in Hc.
Qed.

Lemma same_disk_after_disk_miss file_id file_info w :
  same_disk w (after_disk_miss file_id file_info w).
Proof.
  unfold after_disk_miss. destruct (cached_df_path file_info); [|done].
  by destruct (negb _ && _).
Qed.

(** The call, tier by tier. *)
Lemma process_by_tier app_context cfg file_id file_info w :
  let out := process_single_ifc_file app_context cfg file_id file_info w in
  let filename := original_filename file_info in
  (∀ df, persisted w file_info df →
         out = (print (LogDiskCacheLoaded file_id (pd.len df)) w,
                set_processed_data_df df file_info,
                Ok (file_id, filename, df)))
  ∧ (nothing_persisted w file_info →
     ∀ df, processed_data_df file_info = Some df →
           out = (print (LogUsingMemory file_id (rows_or_0 df))
                    (after_disk_miss file_id file_info w),
                  file_info,
                  Ok (file_id, filename, df)))
  ∧ (nothing_persisted w file_info →
     processed_data_df file_info = None →
     out = match fresh_tier app_context cfg file_id file_info
                   (after_disk_miss file_id file_info w) with
           | (w', file_info', Ok df) => (w', file_info', Ok (file_id, filename, df))
           | (w', file_info', Raise e) => (w', file_info', Raise e)
           end).
Proof.
  intros out filename. subst out filename. unfold process_single_ifc_file.
  split_and!.
  - intros df Hdf. by rewrite (disk_tier_hit _ _ _ _ Hdf).
  - intros Hno df Hmem. rewrite (disk_tier_miss _ _ _ Hno).
    unfold memory_tier. by rewrite Hmem.
  - intros Hno Hmem. rewrite (disk_tier_miss _ _ _ Hno).
    unfold memory_tier. rewrite Hmem.
    by destruct (fresh_tier _ _ _ _ _) as [[w' fi'] [df|e]].
Qed.

(** C5: [process_single_ifc_file] tries the pickle on disk first, the table
    in memory second and a fresh extraction last, each only when the tier
    before it produced nothing.
    - A pickle that can be read is returned whatever the entry holds in
      memory and whatever the model file is: the call prints one line and
      touches nothing else but the entry's table.
    - With nothing persisted, a table in memory is returned without any
      extraction: the world only gains the line of a failed read, if there
      was one, and the line of the memory tier.
    - With nothing persisted and nothing in memory, the outcome is that of
      the third block.
    - A pickle that exists and cannot be read costs one line on the console
      and nothing else: the two cases above still apply. *)
Theorem tiers_in_order app_context cfg file_id file_info w :
  let out := process_single_ifc_file app_context cfg file_id file_info w in
  let filename := original_filename file_info in
  (∀ df, persisted w file_info df →
         out = (print (LogDiskCacheLoaded file_id (pd.len df)) w,
                set_processed_data_df df file_info,
                Ok (file_id, filename, df)))
  ∧ (nothing_persisted w file_info →
     ∀ df, processed_data_df file_info = Some df →
           out = (print (LogUsingMemory file_id (rows_or_0 df))
                    (after_disk_miss file_id file_info w),
                  file_info,
                  Ok (file_id, filename, df)))
  ∧ (nothing_persisted w file_info →
     processed_data_df file_info = None →
     out = match fresh_tier app_context cfg file_id file_info
                   (after_disk_miss file_id file_info w) with
           | (w', file_info', Ok df) => (w', file_info', Ok (file_id, filename, df))
           | (w', file_info', Raise e) => (w', file_info', Raise e)
           end)
  ∧ (∀ p, cached_df_path file_info = Some p → p ≠ "" →
          os.path_exists w p = true → is_ok (read_pickle w p) = false →
          nothing_persisted w file_info
          ∧ after_disk_miss file_id file_info w = print (LogDiskCacheError p file_id) w).
Proof.
  intros out filename. subst out filename.
  destruct (process_by_tier app_context cfg file_id file_info w)
    as (Hdisk & Hmem & Hfresh).
  split_and!; [exact Hdisk|exact Hmem|exact Hfresh|].
  intros p Hp Hne Hex Hread. split.
  - intros df (p' & Hp' & _ & Hf). rewrite Hp in Hp'. injection Hp' as <-.
    unfold read_pickle in Hread. by rewrite Hf in Hread.
  - unfold after_disk_miss. rewrite Hp, Hex.
    by rewrite bool_decide_eq_false_2.
Qed.




Lemma append_nonempty a b : b ≠ "" → a +:+ b ≠ "".
Proof. by destruct a, b. Qed.

Lemma path_join_nonempty a b : b ≠ "" → os.path_join a b ≠ "".
Proof.
  intros Hb. unfold os.path_join.
  destruct (os.starts_with_sep b); [done|].
  destruct (_ || _); [by apply append_nonempty|].
  apply append_nonempty. by apply append_nonempty.
Qed.





End cache.

Section cache_frame.
Import app.

Lemma write_file_same_disk p d w w' :
  same_disk w w' →
  files (os.write_file p d w).1 = files (os.write_file p d w').1
  ∧ (os.write_file p d w).2 = (os.write_file p d w').2.
Proof.
  intros (Hf & Hd & Hw & _). unfold os.write_file. rewrite <-Hd, <-Hw.
  destruct (bool_decide _); [done|].
  destruct (write_fault w p); simpl; by rewrite Hf.
Qed.

(** C8: when the two cache tiers hold nothing and the extraction of the
    saved file returns [df], the call returns [df] and attaches it to the
    entry.  If [df] is empty, files and directories stay as they were and
    so does the entry's pickle path.  If it is not, the files are what ONE
    write of the pickle of [df] to [cache_path cfg file_id] leaves, a path
    computed from the cache folder and the file id alone; when that write
    succeeds, the pickle is there and the entry records its path. *)
Theorem empty_table_stays_in_memory app_context cfg file_id file_info w df :
  nothing_persisted w file_info →
  processed_data_df file_info = None →
  saved_path file_info ≠ "" →
  os.path_exists w (saved_path file_info) = true →
  (ifc_parser.extract_properties_from_ifc (saved_path file_info) w).2 = Ok df →
  let out := process_single_ifc_file app_context cfg file_id file_info w in
  let pickle := os.write_file (cache_path cfg file_id) (PickleFile df) w in
  out.2 = Ok (file_id, original_filename file_info, df)
  ∧ processed_data_df out.1.2 = Some df
  ∧ (pd.empty df = true →
     files out.1.1 = files w ∧ dirs out.1.1 = dirs w
     ∧ cached_df_path out.1.2 = cached_df_path file_info)
  ∧ (pd.empty df = false →
     files out.1.1 = files pickle.1
     ∧ (pickle.2 = Ok () →
        files out.1.1 !! cache_path cfg file_id = Some (PickleFile df)
        ∧ cached_df_path out.1.2 = Some (cache_path cfg file_id))).
Proof.
  intros Hno Hmem Hpath Hex Hdf out pickle. subst out pickle.
  pose proof (process_by_tier app_context cfg file_id file_info w)
    as (_ & _ & Hfresh).
  rewrite (Hfresh Hno Hmem). clear Hfresh.
  pose proof (same_disk_after_disk_miss file_id file_info w) as Hsd0.
  set (w0 := after_disk_miss file_id file_info w) in *.
  unfold fresh_tier.
  assert (os.path_exists (print (LogLoadingFromIfc file_id) w0) (saved_path file_info)
          = true) as ->.
  { rewrite <-Hex. unfold os.path_exists; simpl.
    by destruct Hsd0 as (<- & <- & _). }
  rewrite bool_decide_eq_false_2 by done. simpl.
  assert (same_disk w (print (LogLoadingFromIfc file_id) w0)) as Hsd1 by done.
  pose proof (extract_result_same_disk (saved_path file_info) _ _ Hsd1) as Hr.
  pose proof (extract_same_disk (saved_path file_info)
                (print (LogLoadingFromIfc file_id) w0)) as Hsd2.
  destruct (ifc_parser.extract_properties_from_ifc _ (print _ w0)) as [w1 r1].
  simpl in Hr, Hsd2. rewrite Hdf in Hr. subst r1.
  assert (same_disk w w1) as Hsd by (by etrans).
  destruct (pd.empty df) eqn:Hempty; simpl.
  - split_and!; [done|done| |done]. intros _.
    by destruct Hsd as (<- & <- & _).
  - pose proof (write_file_same_disk (cache_path cfg file_id) (PickleFile df)
                  w (print (LogParsedOk file_id (rows_or_0 df))
                       (print (LogDebugParsed file_id) w1))) as [Hwf Hwr]; [done|].
    destruct (os.write_file _ _ (print _ (print _ w1))) as [w2 [[]|e]] eqn:Hw;
      simpl in *.
    + split_and!; [done|done|done|]. intros _. split; [done|]. intros _.
      split; [|done]. unfold os.write_file in Hw.
      destruct (bool_decide _); [done|].
      destruct (write_fault _ _); [|done..].
      injection Hw as <-. simpl. by rewrite lookup_insert_eq.
    + split_and!; [done|done|done|]. intros _. split; [done|].
      by rewrite Hwr.
Qed.

End cache_frame.

Section cache_examples.
Import app.

Lemma empty_table_stays_in_memory_witness :
  let out := process_single_ifc_file false sample.cfg sample.bare_id
               sample.bare_info sample.world in
  let pickle := os.write_file (cache_path sample.cfg sample.bare_id)
                  (PickleFile pd.DataFrame_new) sample.world in
  out.2 = Ok (sample.bare_id, original_filename sample.bare_info, pd.DataFrame_new)
  ∧ processed_data_df out.1.2 = Some pd.DataFrame_new
  ∧ (pd.empty pd.DataFrame_new = true →
     files out.1.1 = files sample.world ∧ dirs out.1.1 = dirs sample.world
     ∧ cached_df_path out.1.2 = cached_df_path sample.bare_info)
  ∧ (pd.empty pd.DataFrame_new = false →
     files out.1.1 = files pickle.1
     ∧ (pickle.2 = Ok () →
        files out.1.1 !! cache_path sample.cfg sample.bare_id
        = Some (PickleFile pd.DataFrame_new)
        ∧ cached_df_path out.1.2 = Some (cache_path sample.cfg sample.bare_id))).
Proof.
  apply (empty_table_stays_in_memory false sample.cfg sample.bare_id
           sample.bare_info sample.world pd.DataFrame_new).
  - intros df (p & Hp & _). discriminate Hp.
  - reflexivity.
  - discriminate.
  - reflexivity.
  - reflexivity.
Defined.

(** The table of [house.ifc] has three rows; the first call pickles it
    under the name made from the file id, and the second call reads that
    pickle back. *)
Example house_is_pickled :
  let first := process_single_ifc_file false sample.cfg sample.house_id
                 sample.house_info sample.world in
  cache_path sample.cfg sample.house_id
  = "cache/0f8fad5b_d9cb_469f_a165_70867728950e_df.pkl"
  ∧ (∃ df, first.2 = Ok (sample.house_id, "house.ifc", df) ∧ pd.len df = 3
           ∧ files first.1.1 !! cache_path sample.cfg sample.house_id
             = Some (PickleFile df))
  ∧ cached_df_path first.1.2 = Some (cache_path sample.cfg sample.house_id)
  ∧ last (stdout (process_single_ifc_file false sample.cfg sample.house_id
                    first.1.2 first.1.1).1.1)
    = Some (LogDiskCacheLoaded sample.house_id 3).
Proof.
  cbv zeta. split_and!; [by vm_compute| |by vm_compute|by vm_compute].
  eexists. split_and!; by vm_compute.
Qed.

End cache_examples.

(** ** Tables *)

Section tables.


Lemma remove_dups_NoDup_id (l : list string) : NoDup l → remove_dups l = l.
Proof.
  induction 1 as [|x l Hx Hl IH]; simpl; [done|].
  destruct (decide_rel elem_of x l); [done|]. by rewrite IH.
Qed.

Lemma index_of_lookup (cols : list string) i c :
  NoDup cols → cols !! i = Some c → pd.index_of c cols = Some i.
Proof.
  intros Hnd. revert i. induction Hnd as [|x l Hx Hl IH]; intros i Hi; [done|].
  destruct i as [|i]; simpl in *.
  - injection Hi as ->. by rewrite decide_True.
  - rewrite decide_False; [by rewrite (IH i Hi)|].
    intros ->. apply Hx. by eapply list_elem_of_lookup_2.
Qed.




(** Reading every column of a row by its label gives the row back. *)
Lemma row_by_labels (cols : list string) (row : list Val) :
  NoDup cols → length row = length cols →
  map (λ c, default VNaN (i ← pd.index_of c cols; row !! i)) cols = row.
Proof.
  intros Hnd Hlen. apply list_eq. intros i. rewrite list_lookup_fmap.
  destruct (cols !! i) as [c|] eqn:Hc; simpl.
  - rewrite (index_of_lookup _ _ _ Hnd Hc). simpl.
    destruct (lookup_lt_is_Some_2 row i) as [x Hx].
    { rewrite Hlen. by eapply lookup_lt_Some. }
    by rewrite Hx.
  - symmetry. apply lookup_ge_None. rewrite Hlen. by apply lookup_ge_None.
Qed.








End tables.

(** ** The batch endpoint *)

Section batch.
Import app.



(** The console only grows. *)
Definition extends (w w' : World) : Prop :=
  ∃ evs, stdout w' = stdout w ++ evs.

#[local] Instance extends_preorder : PreOrder extends.
Proof.
  split.
  - intros w. exists []. by rewrite app_nil_r.
  - intros w1 w2 w3 [e1 H1] [e2 H2]. exists (e1 ++ e2).
    by rewrite H2, H1, (assoc app).
Qed.









(** The answer to that request: the three rows of [house.ifc], tagged. *)
Example batch_on_house :
  (extract_data sample.cfg (Some [sample.house_id; sample.unknown_id])
     sample.served).2
  = JsonData 200 "Data extracted from 1 file(s). Total records: 3."
      (map (λ p : string * Val,
              [("FileName", VStr "house.ifc"); ("IFC_Entity", VStr "IfcWall");
               ("IFC_Name", VStr "Wall-001"); ("IFC_GlobalId", VStr "E1");
               ("PropertySet", VStr "Pset_WallCommon");
               ("PropertyName", VStr p.1); ("PropertyValue", p.2);
               ("Source Model", VStr "house.ifc")])
           [("IsExternal", VBool true); ("Reference", VStr "Brick");
            ("FireRating", VNone)]).
Proof. by vm_compute. Qed.

End batch.

(** ** Artifacts of a parse *)

Section artifacts.
Import ifc_parser app.

(** Worlds with the same faults. *)
Definition same_faults (w w' : World) : Prop :=
  write_fault w = write_fault w' ∧ remove_fails w = remove_fails w'
  ∧ makedirs_fails w = makedirs_fails w'.

Lemma write_file_same_disk_world p d w w' :
  same_disk w w' →
  same_disk (os.write_file p d w).1 (os.write_file p d w').1
  ∧ (os.write_file p d w).2 = (os.write_file p d w').2.
Proof.
  intros (Hf & Hd & Hw & Hr & Hm). unfold os.write_file. rewrite <-Hd, <-Hw.
  destruct (bool_decide _); [done|].
  destruct (write_fault w p); simpl; unfold same_disk; simpl; by rewrite Hf.
Qed.

Lemma write_file_same_faults p d w : same_faults w (os.write_file p d w).1.
Proof.
  unfold os.write_file. destruct (bool_decide _); [done|].
  by destruct (write_fault w p).
Qed.

Lemma save_outputs_same_disk csv json df w w' :
  same_disk w w' →
  same_disk (save_outputs csv json df w).1 (save_outputs csv json df w').1
  ∧ (save_outputs csv json df w).2 = (save_outputs csv json df w').2.
Proof.
  intros Hsd. unfold save_outputs.
  destruct (write_file_same_disk_world csv (CsvFile df) w w' Hsd) as [Hw1 Hr1].
  destruct (os.write_file csv _ w) as [w1 r1], (os.write_file csv _ w') as [w1' r1'].
  simpl in Hw1, Hr1. subst r1'. destruct r1 as [[]|e]; [|done].
  destruct (write_file_same_disk_world json
              (JsonFile (map pd.clean_record (pd.to_records df)))
              (print (LogSavedCsv csv) w1) (print (LogSavedCsv csv) w1')) as [Hw2 Hr2];
    [done|].
  destruct (os.write_file json _ (print _ w1)) as [w2 r2],
           (os.write_file json _ (print _ w1')) as [w2' r2'].
  simpl in Hw2, Hr2. subst r2'. by destruct r2 as [[]|e].
Qed.

Lemma save_outputs_same_faults csv json df w :
  same_faults w (save_outputs csv json df w).1.
Proof.
  unfold save_outputs.
  pose proof (write_file_same_faults csv (CsvFile df) w) as H1.
  destruct (os.write_file csv _ w) as [w1 [[]|e]]; [|done]. simpl in H1.
  pose proof (write_file_same_faults json
                (JsonFile (map pd.clean_record (pd.to_records df)))
                (print (LogSavedCsv csv) w1)) as H2.
  destruct (os.write_file json _ _) as [w2 [[]|e]];
    unfold same_faults in *; simpl in *;
    destruct H1 as (?&?&?), H2 as (?&?&?); split_and!; congruence.
Qed.

(** A clean-up step removes its file unless the removal is refused; it
    creates no file and changes no fault. *)
Lemma cleanup_removes p cleaned failed w :
  remove_fails w p = false → files (cleanup p cleaned failed w) !! p = None.
Proof.
  intros Hr. unfold cleanup, os.path_exists, os.remove.
  destruct (files w !! p) as [d|] eqn:Hf.
  - rewrite (bool_decide_eq_true_2 (is_Some _)) by eauto. simpl.
    rewrite Hr. simpl. apply lookup_delete_eq.
  - rewrite (bool_decide_eq_false_2 (is_Some _)) by (by intros [? ?]). simpl.
    destruct (bool_decide _); [|done].
    by rewrite Hr.
Qed.

Lemma cleanup_keeps_absent p cleaned failed w q :
  files w !! q = None → files (cleanup p cleaned failed w) !! q = None.
Proof.
  intros Hq. unfold cleanup, os.remove.
  destruct (os.path_exists w p); [|done].
  destruct (_ || _); simpl; [done|].
  destruct (decide (p = q)) as [->|Hne].
  - apply lookup_delete_eq.
  - by rewrite lookup_delete_ne.
Qed.

Lemma cleanup_same_faults p cleaned failed w :
  same_faults w (cleanup p cleaned failed w).
Proof.
  unfold cleanup, os.remove. destruct (os.path_exists w p); [|done].
  by destruct (_ || _).
Qed.

Lemma ensure_output_dir_same_disk output_dir file_id w w' :
  same_disk w w' →
  same_disk (ensure_output_dir output_dir file_id w).1
            (ensure_output_dir output_dir file_id w').1
  ∧ (ensure_output_dir output_dir file_id w).2
    = (ensure_output_dir output_dir file_id w').2.
Proof.
  intros (Hf & Hd & Hw & Hr & Hm). unfold ensure_output_dir, os.path_exists.
  rewrite <-Hf, <-Hd. destruct (negb _); [|done].
  unfold os.makedirs. rewrite <-Hm.
  destruct (makedirs_fails w output_dir); simpl; [done|].
  unfold same_disk; simpl. by rewrite Hd.
Qed.

Lemma ensure_output_dir_same_faults output_dir file_id w :
  same_faults w (ensure_output_dir output_dir file_id w).1.
Proof.
  unfold ensure_output_dir, os.makedirs. destruct (negb _); [|done].
  by destruct (makedirs_fails w output_dir).
Qed.

(** The parse of a file whose table is not empty, into a directory that
    exists or can be created, when the save fails: stated for any world
    with the disk of [w], as the callers print before they call. *)
Lemma parse_failed_save ifc_file_path output_dir file_id w w' df :
  same_disk w w' →
  (extract_properties_from_ifc ifc_file_path w).2 = Ok df →
  pd.empty df = false →
  (ensure_output_dir output_dir file_id w).2 = true →
  is_ok (save_outputs (csv_path_of output_dir file_id)
           (json_path_of output_dir file_id) df
           (ensure_output_dir output_dir file_id w).1).2 = false →
  let out := parse_ifc_to_files ifc_file_path output_dir file_id w' in
  out.2 = Ok (None, None)
  ∧ (remove_fails w (csv_path_of output_dir file_id) = false →
     files out.1 !! csv_path_of output_dir file_id = None)
  ∧ (remove_fails w (json_path_of output_dir file_id) = false →
     files out.1 !! json_path_of output_dir file_id = None).
Proof.
  intros Hsd Hdf Hempty Hdir Hsave out. subst out. unfold parse_ifc_to_files.
  set (w0 := print (LogStartParsing ifc_file_path file_id) w').
  assert (same_disk w w0) as Hsd0 by (by etrans; [exact Hsd|]).
  pose proof (extract_result_same_disk ifc_file_path w w0 Hsd0) as Hr.
  pose proof (extract_same_disk ifc_file_path w0) as Hsd1.
  destruct (extract_properties_from_ifc ifc_file_path w0) as [w1 r1].
  simpl in Hr, Hsd1. rewrite Hdf in Hr. subst r1. rewrite Hempty.
  assert (same_disk w w1) as Hsd2 by (by etrans).
  destruct (ensure_output_dir_same_disk output_dir file_id w w1 Hsd2)
    as [Hsdd Hready].
  pose proof (ensure_output_dir_same_faults output_dir file_id w) as Hfd.
  destruct (ensure_output_dir output_dir file_id w) as [wd ready].
  destruct (ensure_output_dir output_dir file_id w1) as [wd1 ready1].
  simpl in Hdir, Hsave, Hsdd, Hready, Hfd. subst ready ready1. simpl.
  destruct (save_outputs_same_disk (csv_path_of output_dir file_id)
              (json_path_of output_dir file_id) df wd wd1 Hsdd) as [_ Hres].
  pose proof (save_outputs_same_faults (csv_path_of output_dir file_id)
                (json_path_of output_dir file_id) df wd1) as Hfaults.
  destruct (save_outputs _ _ df wd1) as [w2 r2]. simpl in Hres, Hfaults.
  rewrite Hres in Hsave. destruct r2 as [[]|e]; [done|]. simpl.
  set (w3 := print (LogSaveError file_id ifc_file_path) w2).
  set (w4 := cleanup (csv_path_of output_dir file_id) _ _ w3).
  assert (remove_fails w3 = remove_fails w) as Hrm3.
  { subst w3. simpl. destruct Hfaults as (_ & <- & _).
    destruct Hsdd as (_ & _ & _ & <- & _). by destruct Hfd as (_ & <- & _). }
  assert (remove_fails w4 = remove_fails w) as Hrm4.
  { rewrite <-Hrm3. symmetry. apply cleanup_same_faults. }
  split_and!; [done| |].
  - intros Hrm. apply cleanup_keeps_absent. apply cleanup_removes.
    by rewrite Hrm3.
  - intros Hrm. apply cleanup_removes. by rewrite Hrm4.
Qed.

(** The worker on a file whose parse returns no paths: it ends with the
    task marked failed, and writes no [result]. *)
Lemma worker_without_output cfg file_id ifc_file_path output_dir st t :
  parsing_status st !! file_id = Some t →
  (parse_ifc_to_files ifc_file_path output_dir file_id
     (print (LogAsyncStarted file_id ifc_file_path) (world st))).2
  = Ok (None, None) →
  let fin := parse_ifc_file_async cfg file_id ifc_file_path output_dir st in
  fin.1 = Done
  ∧ parsing_status fin.2 !! file_id
    = Some (set_error (Some NoOutputFiles)
              (set_status failed (set_status processing t)))
  ∧ files (world fin.2)
    = files (parse_ifc_to_files ifc_file_path output_dir file_id
               (print (LogAsyncStarted file_id ifc_file_path) (world st))).1.
Proof.
  intros Ht Hparse fin. subst fin. unfold parse_ifc_file_async.
  set (F := λ ps : Pc * AppState,
              worker_step cfg file_id ifc_file_path output_dir ps.1 ps.2).
  change (Nat.iter 5 F (AtStart, st)) with (F (F (F (F (F (AtStart, st)))))).
  set (st1 := with_world (print (LogAsyncStarted file_id ifc_file_path) (world st))
                (update_task (set_status processing) file_id st)).
  set (w2 := (parse_ifc_to_files ifc_file_path output_dir file_id (world st1)).1).
  set (st3 := update_task (set_status failed) file_id (with_world w2 st1)).
  set (st4 := with_world (print (LogAsyncFailed file_id)
                            (world (update_task (set_error (Some NoOutputFiles))
                                      file_id st3)))
                (update_task (set_error (Some NoOutputFiles)) file_id st3)).
  assert (F (AtStart, st) = (AtParse, st1)) as ->.
  { subst F. cbn [fst snd]. unfold worker_step. by rewrite Ht. }
  assert (F (AtParse, st1) = (AtBranch (Ok (None, None)), with_world w2 st1)) as ->.
  { subst F w2. cbn [fst snd]. unfold worker_step.
    change (world st1) with (print (LogAsyncStarted file_id ifc_file_path) (world st))
      in *.
    destruct (parse_ifc_to_files _ _ _ _) as [w r]. simpl in Hparse. by subst r. }
  assert (F (AtBranch (Ok (None, None)), with_world w2 st1)
          = (AtSetError NoOutputFiles, st3)) as -> by done.
  assert (F (AtSetError NoOutputFiles, st3) = (Done, st4)) as -> by done.
  assert (F (Done, st4) = (Done, st4)) as -> by done.
  split_and!; [done| |done].
  subst st4 st3 st1. cbn [snd parsing_status with_world update_task with_tasks].
  rewrite !lookup_alter_eq. by rewrite Ht.
Qed.

(** C10, as the code has it.  [w] is the world at the call: the file
    yields a table [df] that is not empty, the output directory exists or
    is created, and the [try] block of the save raises.  Then [parse_ifc_to_files] returns
    [(None, None)]; each of the two artifact paths holds no file
    afterwards unless the environment refuses its removal; and the worker
    of a task that has no result ends with that task marked failed, still
    without a result, and with the same files. *)
Theorem failed_save_is_cleaned_up ifc_file_path output_dir file_id w df :
  (extract_properties_from_ifc ifc_file_path w).2 = Ok df →
  pd.empty df = false →
  (ensure_output_dir output_dir file_id w).2 = true →
  is_ok (save_outputs (csv_path_of output_dir file_id)
           (json_path_of output_dir file_id) df
           (ensure_output_dir output_dir file_id w).1).2 = false →
  let csv := csv_path_of output_dir file_id in
  let json := json_path_of output_dir file_id in
  let out := parse_ifc_to_files ifc_file_path output_dir file_id w in
  out.2 = Ok (None, None)
  ∧ (remove_fails w csv = false → files out.1 !! csv = None)
  ∧ (remove_fails w json = false → files out.1 !! json = None)
  ∧ (∀ cfg st t,
       world st = w → parsing_status st !! file_id = Some t → result t = None →
       let fin := parse_ifc_file_async cfg file_id ifc_file_path output_dir st in
       fin.1 = Done
       ∧ (∃ t', parsing_status fin.2 !! file_id = Some t'
                ∧ status t' = failed ∧ result t' = None
                ∧ error t' = Some NoOutputFiles)
       ∧ (remove_fails w csv = false → files (world fin.2) !! csv = None)
       ∧ (remove_fails w json = false → files (world fin.2) !! json = None)).
Proof.
  intros Hdf Hempty Hdir Hsave csv json out. subst csv json out.
  destruct (parse_failed_save ifc_file_path output_dir file_id w w df)
    as (Hnone & Hcsv & Hjson); [done..|].
  split_and!; [done..|].
  intros cfg st t <- Ht Hres fin. subst fin.
  destruct (parse_failed_save ifc_file_path output_dir file_id (world st)
              (print (LogAsyncStarted file_id ifc_file_path) (world st)) df)
    as (Hnone' & Hcsv' & Hjson'); [done..|].
  destruct (worker_without_output cfg file_id ifc_file_path output_dir st t Ht Hnone')
    as (Hdone & Htask & Hfiles).
  split_and!; [done| |by rewrite Hfiles..].
  eexists. split; [exact Htask|]. by rewrite <-Hres.
Qed.

Lemma failed_save_is_cleaned_up_witness :
  let csv := csv_path_of "cache" sample.house_id in
  let json := json_path_of "cache" sample.house_id in
  let w := sample.json_refused false in
  let out := parse_ifc_to_files "uploads/house.ifc" "cache" sample.house_id w in
  out.2 = Ok (None, None)
  ∧ (remove_fails w csv = false → files out.1 !! csv = None)
  ∧ (remove_fails w json = false → files out.1 !! json = None)
  ∧ (∀ cfg st t,
       world st = w → parsing_status st !! sample.house_id = Some t →
       result t = None →
       let fin := parse_ifc_file_async cfg sample.house_id "uploads/house.ifc"
                    "cache" st in
       fin.1 = Done
       ∧ (∃ t', parsing_status fin.2 !! sample.house_id = Some t'
                ∧ status t' = failed ∧ result t' = None
                ∧ error t' = Some NoOutputFiles)
       ∧ (remove_fails w csv = false → files (world fin.2) !! csv = None)
       ∧ (remove_fails w json = false → files (world fin.2) !! json = None)).
Proof.
  apply (failed_save_is_cleaned_up "uploads/house.ifc" "cache" sample.house_id
           (sample.json_refused false) sample.house_table).
  - reflexivity.
  - reflexivity.
  - reflexivity.
  - reflexivity.
Defined.

(** C10, against the claim: the JSON of [house.ifc] cannot be written and
    removals are refused.  The save fails after the CSV was written, the
    parse returns [(None, None)], and the CSV is still there; its failed
    removal is on the console. *)
Lemma failed_save_leaves_csv :
  let w := sample.json_refused true in
  let out := parse_ifc_to_files "uploads/house.ifc" "cache" sample.house_id w in
  is_ok (save_outputs sample.house_csv sample.house_json sample.house_table w).2
  = false
  ∧ files w !! sample.house_csv = None
  ∧ out.2 = Ok (None, None)
  ∧ files out.1 !! sample.house_csv = Some (CsvFile sample.house_table)
  ∧ LogDeleteCsvError sample.house_csv ∈ stdout out.1.
Proof.
  cbv zeta. split_and!; [by vm_compute..|]. vm_compute.
  repeat first [ apply list_elem_of_here | apply list_elem_of_further ].
Qed.

End artifacts.

(** ** The task table *)

Section tracker.
Import app.

(** What the task of a worker holds while the worker stands at [pc]. *)
Definition task_at (pc : Pc) (t : Task) : Prop :=
  match pc with
  | AtStart => status t = pending ∧ result t = None
  | AtParse | AtBranch _ => status t = processing ∧ result t = None
  | AtSetResult _ _ => status t = completed ∧ result t = None
  | AtClearError _ _ => status t = completed ∧ is_Some (result t)
  | AtSetError _ => status t = failed ∧ result t = None
  | Done => (status t = completed ∧ is_Some (result t))
            ∨ (status t = failed ∧ result t = None)
  end.

(** Every task has its worker, and holds what that worker has written. *)
Definition tracker_inv (sv : Server) : Prop :=
  ∀ file_id t, parsing_status (state sv) !! file_id = Some t →
    ∃ wk, workers sv !! file_id = Some wk ∧ task_at (worker_pc wk) t.

Lemma extract_data_tasks cfg request st :
  parsing_status (extract_data cfg request st).1 = parsing_status st.
Proof.
  unfold extract_data. destruct request as [[|x xs]|]; [done| |done].
  destruct (foldl (submit st) _ _) as [w1 futures].
  destruct (foldl (run_future cfg) _ _) as [[w2 metadata] results].
  destruct (foldl collect _ _) as [[w3 frames] n].
  by destruct frames.
Qed.

(** A worker writes to the task of its own file only. *)
Lemma worker_step_other cfg file_id path dir pc st other :
  other ≠ file_id →
  parsing_status (worker_step cfg file_id path dir pc st).2 !! other
  = parsing_status st !! other.
Proof.
  intros Hne. unfold worker_step.
  destruct pc as [| |[r|e]|csv json|csv json|msg|]; simpl;
    try destruct (parsing_status st !! file_id);
    try destruct (ifc_parser.parse_ifc_to_files _ _ _ _);
    try destruct (both_paths r) as [[c j]|]; simpl;
    by rewrite ?lookup_alter_ne.
Qed.

(** One statement takes the task from what it holds at [pc] to what it
    holds at the next program point. *)
Lemma worker_step_task cfg file_id path dir pc st t' :
  parsing_status (worker_step cfg file_id path dir pc st).2 !! file_id = Some t' →
  ∃ t, parsing_status st !! file_id = Some t
     ∧ (task_at pc t → task_at (worker_step cfg file_id path dir pc st).1 t').
Proof.
  unfold worker_step.
  destruct pc as [| |[r|e]|csv json|csv json|msg|]; simpl.
  - destruct (parsing_status st !! file_id) as [t|] eqn:Ht; simpl.
    + rewrite lookup_alter_eq, Ht. intros [= <-]. exists t. split; [done|].
      by intros [_ ?].
    + by rewrite Ht.
  - destruct (ifc_parser.parse_ifc_to_files _ _ _ _) as [w r]. simpl.
    intros Ht. by exists t'.
  - destruct (both_paths r) as [[c j]|]; simpl; rewrite lookup_alter_eq;
      destruct (parsing_status st !! file_id) as [t|]; simpl; try done;
      intros [= <-]; exists t; (split; [done|]); by intros [_ ?].
  - rewrite lookup_alter_eq.
    destruct (parsing_status st !! file_id) as [t|]; simpl; [|done].
    intros [= <-]. exists t. split; [done|]. by intros [_ ?].
  - rewrite lookup_alter_eq.
    destruct (parsing_status st !! file_id) as [t|]; simpl; [|done].
    intros [= <-]. exists t. split; [done|]. intros [? _]. split; [done|].
    simpl. eauto.
  - rewrite lookup_alter_eq.
    destruct (parsing_status st !! file_id) as [t|]; simpl; [|done].
    intros [= <-]. exists t. split; [done|]. intros [? ?]. by left.
  - rewrite lookup_alter_eq.
    destruct (parsing_status st !! file_id) as [t|]; simpl; [|done].
    intros [= <-]. exists t. split; [done|]. intros [? ?]. by right.
  - intros Ht. by exists t'.
Qed.

(** The invariant of the task table, at the grain of single statements. *)
Theorem tracker_invariant cfg w sv : reachable cfg w sv → tracker_inv sv.
Proof.
  induction 1 as [|sv sv' Hreach IH Hstep].
  - intros file_id t Ht. simpl in Ht. by rewrite lookup_empty in Ht.
  - destruct Hstep as [sv fid filename filepath schema software m Hfresh Hnew Hmeta
                      |sv fid wk Hwk Hrun
                      |sv request].
    + intros file_id t Ht. simpl in *.
      destruct (decide (fid = file_id)) as [->|Hne].
      * rewrite lookup_insert_eq in Ht. injection Ht as <-.
        rewrite lookup_insert_eq. eexists. split; [done|]. done.
      * rewrite lookup_insert_ne in Ht by done. rewrite lookup_insert_ne by done.
        by apply IH.
    + intros file_id t Ht. unfold advance in *.
      destruct (worker_step cfg fid (worker_path wk) (worker_output_dir wk)
                  (worker_pc wk) (state sv)) as [pc' st'] eqn:Hws.
      simpl in *. destruct (decide (fid = file_id)) as [->|Hne].
      * rewrite lookup_insert_eq. eexists. split; [done|]. simpl.
        pose proof (worker_step_task cfg file_id (worker_path wk)
                      (worker_output_dir wk) (worker_pc wk) (state sv) t) as Hst.
        rewrite Hws in Hst. simpl in Hst.
        destruct (Hst Ht) as (t0 & Ht0 & Himp).
        destruct (IH file_id t0 Ht0) as (wk0 & Hwk0 & Hat).
        rewrite Hwk in Hwk0. injection Hwk0 as <-. by apply Himp.
      * rewrite lookup_insert_ne by done. apply IH.
        pose proof (worker_step_other cfg fid (worker_path wk)
                      (worker_output_dir wk) (worker_pc wk) (state sv) file_id) as Ho.
        rewrite Hws in Ho. simpl in Ho. rewrite <-Ho; [done|]. by intros ->.
    + intros file_id t Ht. simpl in *. rewrite extract_data_tasks in Ht.
      by apply IH.
Qed.

(** What the invariant gives a reader of the task table, whatever the
    threads are doing: a failed task never has a result; a completed task
    has one, except while its worker stands between the assignment of the
    status (line 550 of [app.py]) and the assignment of the result
    (line 551). *)
Theorem tracker_reads cfg w sv file_id t :
  reachable cfg w sv →
  parsing_status (state sv) !! file_id = Some t →
  (status t = failed → result t = None)
  ∧ (status t = completed →
     is_Some (result t)
     ∨ ∃ wk csv json, workers sv !! file_id = Some wk
                      ∧ worker_pc wk = AtSetResult csv json).
Proof.
  intros Hreach Ht.
  destruct (tracker_invariant cfg w sv Hreach file_id t Ht) as (wk & Hwk & Hat).
  destruct (worker_pc wk) as [| |[r|e]|csv json|csv json|msg|] eqn:Hpc;
    simpl in Hat; (split; intros Hs);
    try (destruct Hat as [Hst Hres]; congruence);
    try (destruct Hat as [Hst Hres]; by left).
  - right. by exists wk, csv, json.
  - destruct Hat as [[Hst Hres]|[Hst Hres]]; congruence.
  - destruct Hat as [[Hst Hres]|[Hst Hres]]; [by left|congruence].
Qed.

Definition is_running (sv : Server) (file_id : string) : bool :=
  match workers sv !! file_id with
  | Some wk => match worker_pc wk with Done => false | _ => true end
  | None => false
  end.

Lemma run_worker_step sv file_id :
  is_running sv file_id = true →
  step sample.cfg sv (sample.run_worker file_id sv).
Proof.
  unfold is_running, sample.run_worker.
  destruct (workers sv !! file_id) as [wk|] eqn:Hwk; [|done]. intros Hpc.
  apply step_worker; [done|]. by destruct (worker_pc wk).
Qed.

Lemma after_line_550_reachable :
  reachable sample.cfg sample.world sample.after_line_550.
Proof.
  unfold sample.after_line_550.
  do 3 (eapply reachable_step; [|apply run_worker_step; by vm_compute]).
  eapply reachable_step; [apply reachable_boot|].
  by apply step_upload.
Qed.

(** C3, on the code: [house.ifc] is uploaded and its worker runs up to and
    including line 550.  The state is reachable; in it the task is
    [completed] and its result is still [None]: the locations are written
    by the next statement. *)
Theorem completed_before_result :
  reachable sample.cfg sample.world sample.after_line_550
  ∧ ∃ t wk,
      parsing_status (state sample.after_line_550) !! sample.house_id = Some t
      ∧ status t = completed ∧ result t = None
      ∧ workers sample.after_line_550 !! sample.house_id = Some wk
      ∧ worker_pc wk = AtSetResult sample.house_csv sample.house_json.
Proof.
  split; [apply after_line_550_reachable|].
  do 2 eexists. split_and!; by vm_compute.
Qed.

Lemma tracker_reads_witness :
  (status (set_status completed (set_status processing
             (new_task "house.ifc" "uploads/house.ifc" "IFC4" "Unknown"))) = failed →
   result (set_status completed (set_status processing
             (new_task "house.ifc" "uploads/house.ifc" "IFC4" "Unknown"))) = None)
  ∧ (status (set_status completed (set_status processing
               (new_task "house.ifc" "uploads/house.ifc" "IFC4" "Unknown")))
     = completed →
     is_Some (result (set_status completed (set_status processing
                        (new_task "house.ifc" "uploads/house.ifc" "IFC4" "Unknown"))))
     ∨ ∃ wk csv json,
         workers sample.after_line_550 !! sample.house_id = Some wk
         ∧ worker_pc wk = AtSetResult csv json).
Proof.
  apply (tracker_reads sample.cfg sample.world sample.after_line_550
           sample.house_id).
  - apply after_line_550_reachable.
  - by vm_compute.
Defined.

End tracker.

(** ** More on the relationship graph *)

Section graph_more.
Import graph_builder.

Ltac open_binds H :=
  repeat match type of H with
    | context [mbind _ ?m] =>
        let E := fresh "E" in destruct m eqn:E; simpl in H; [|done]
    end.

(** Whatever one call of the helper keeps, the five edge loops keep. *)
Lemma populate_edges_invariant (P : BuildState → Prop) m G st :
  (∀ G n src tgt rel lbl,
     P (G, n) → P (count_edge (add_relationship_edge G src tgt rel lbl) n)) →
  populate_edges m G = Ok st → P (G, 0) → P st.
Proof.
  intros Hcall Hrun H0.
  assert (∀ (f : BuildState → Val → BuildState) l st0,
            (∀ s x, P s → P (f s x)) → P st0 → P (foldl f st0 l)) as Hfold.
  { intros f l st0 Hf. revert st0. induction l; simpl; auto. }
  assert (∀ st rel st', contained_step st rel = Ok st' → P st → P st') as Hc.
  { unfold contained_step. intros s rel s' H Hs. open_binds H. injection H as <-.
    apply Hfold; [|done]. intros [G0 n0] x HP. by apply Hcall. }
  assert (∀ st rel st', aggregates_step st rel = Ok st' → P st → P st') as Ha.
  { unfold aggregates_step. intros s rel s' H Hs. open_binds H. injection H as <-.
    apply Hfold; [|done]. intros [G0 n0] x HP. by apply Hcall. }
  assert (∀ st rel st', connects_step st rel = Ok st' → P st → P st') as Hn.
  { unfold connects_step. intros [G0 n0] rel s' H Hs.
    destruct (_ && _); [|by injection H as <-].
    open_binds H. injection H as <-. by apply Hcall. }
  assert (∀ st rel st', voids_step st rel = Ok st' → P st → P st') as Hv.
  { unfold voids_step. intros [G0 n0] rel s' H Hs. open_binds H.
    injection H as <-. by apply Hcall. }
  assert (∀ st rel st', fills_step st rel = Ok st' → P st → P st') as Hf.
  { unfold fills_step. intros [G0 n0] rel s' H Hs. open_binds H.
    injection H as <-. by apply Hcall. }
  unfold populate_edges in Hrun.
  destruct (for_each contained_step _ _) as [s1|] eqn:E1; simpl in Hrun; [|done].
  destruct (for_each aggregates_step _ _) as [s2|] eqn:E2; simpl in Hrun; [|done].
  destruct (for_each connects_step _ _) as [s3|] eqn:E3; simpl in Hrun; [|done].
  destruct (for_each voids_step _ _) as [s4|] eqn:E4; simpl in Hrun; [|done].
  pose proof (for_each_invariant (A:=Entity) P) as Hloop.
  apply (Hloop _ _ _ _ Hc) in E1; [|done].
  apply (Hloop _ _ _ _ Ha) in E2; [|done].
  apply (Hloop _ _ _ _ Hn) in E3; [|done].
  apply (Hloop _ _ _ _ Hv) in E4; [|done].
  by apply (Hloop _ _ _ _ Hf) in Hrun.
Qed.

(** The nodes after one product. *)
Lemma add_product_node_lookup G item g :
  is_Some (nx.nodes (add_product_node G item) !! g)
  ↔ is_Some (nx.nodes G !! g)
    ∨ (attr (VEnt item) "GlobalId" = Ok (VStr g) ∧ g ≠ "").
Proof.
  unfold add_product_node.
  destruct (attr (VEnt item) "GlobalId") as [v|e] eqn:Hattr; [|naive_solver].
  destruct v as [|b|z| |s|e|l]; simpl;
    try (by destruct (negb _); naive_solver); try naive_solver.
  destruct (String.eqb s "") eqn:Hs; simpl.
  - apply String.eqb_eq in Hs as ->. naive_solver.
  - apply String.eqb_neq in Hs.
    destruct (decide (s = g)) as [->|Hne].
    + rewrite lookup_insert_eq. naive_solver.
    + rewrite lookup_insert_ne by done. naive_solver.
Qed.

Lemma populate_nodes_lookup m g :
  is_Some (nx.nodes (populate_nodes m) !! g)
  ↔ ∃ item, item ∈ by_type m "IfcProduct"
            ∧ attr (VEnt item) "GlobalId" = Ok (VStr g) ∧ g ≠ "".
Proof.
  unfold populate_nodes.
  assert (∀ l G, is_Some (nx.nodes (foldl add_product_node G l) !! g)
                 ↔ is_Some (nx.nodes G !! g)
                   ∨ ∃ item, item ∈ l
                             ∧ attr (VEnt item) "GlobalId" = Ok (VStr g) ∧ g ≠ "")
    as Hfold.
  { induction l as [|x l IH]; intros G; simpl.
    - split; [by left|]. intros [?|(item & Hin & _)]; [done|].
      by apply elem_of_nil in Hin.
    - rewrite IH, add_product_node_lookup. split.
      + intros [[?|?]|(item & Hin & ?)]; [by left|right..].
        * exists x. split; [apply list_elem_of_here|done].
        * exists item. split; [by apply list_elem_of_further|done].
      + intros [?|(item & Hin & ?)]; [by left; left|].
        apply elem_of_cons in Hin as [->|Hin]; [by left; right|].
        right. by exists item. }
  rewrite Hfold. simpl. rewrite lookup_empty. split; [|by right].
  intros [[? ?]|?]; done.
Qed.

(** The nodes of a built graph are exactly the non-empty [GlobalId]s of the
    [IfcProduct] instances of the model: a product without one gets no
    node, two products with the same one share a node, and nothing else
    ever becomes a node. *)
Theorem nodes_are_identified_products m G n :
  build_graph m = Ok (G, n) →
  (∀ g, is_Some (nx.nodes G !! g)
        ↔ ∃ item, item ∈ by_type m "IfcProduct"
                  ∧ attr (VEnt item) "GlobalId" = Ok (VStr g) ∧ g ≠ "")
  ∧ nx.number_of_nodes G ≤ length (by_type m "IfcProduct").
Proof.
  intros Hb. apply build_graph_inv in Hb as [HN _]. split.
  - intros g. rewrite HN. apply populate_nodes_lookup.
  - unfold nx.number_of_nodes. rewrite HN. unfold populate_nodes.
    assert (∀ l G0, size (nx.nodes (foldl add_product_node G0 l))
                    ≤ size (nx.nodes G0) + length l) as Hsize.
    { induction l as [|x l IH]; intros G0; simpl; [lia|].
      etrans; [apply IH|].
      assert (size (nx.nodes (add_product_node G0 x)) ≤ S (size (nx.nodes G0))); [|lia].
      unfold add_product_node. destruct (attr _ _); [|lia].
      destruct (negb _); [lia|]. destruct (as_guid _); [|lia].
      simpl. destruct (nx.nodes G0 !! s) eqn:Hs.
      - rewrite map_size_insert_Some by eauto. lia.
      - by rewrite map_size_insert_None. }
    specialize (Hsize (by_type m "IfcProduct") nx.empty).
    simpl in Hsize. by rewrite map_size_empty in Hsize.
Qed.

Lemma nodes_are_identified_products_witness :
  (∀ g, is_Some (nx.nodes sample.dangling_graph !! g)
        ↔ ∃ item, item ∈ by_type sample.with_dangling "IfcProduct"
                  ∧ attr (VEnt item) "GlobalId" = Ok (VStr g) ∧ g ≠ "")
  ∧ nx.number_of_nodes sample.dangling_graph
    ≤ length (by_type sample.with_dangling "IfcProduct").
Proof.
  apply (nodes_are_identified_products sample.with_dangling sample.dangling_graph 1).
  by vm_compute.
Defined.

(** The graph never holds more edges than the builder counted as added:
    each call that answers [True] adds one to the count and at most one
    edge to the graph. *)
Theorem edges_at_most_counted m G n :
  build_graph m = Ok (G, n) → nx.number_of_edges G ≤ n.
Proof.
  intros Hb. unfold build_graph in Hb.
  apply (populate_edges_invariant (λ st, nx.number_of_edges st.1 ≤ st.2)) in Hb.
  - done.
  - intros G0 n0 src tgt rel lbl HP. simpl in HP.
    unfold add_relationship_edge, count_edge.
    destruct (negb _); [done|].
    destruct (nx.has_node G0 _ && nx.has_node G0 _); [|done].
    destruct (as_guid (getattr src _ _)) as [u|]; [|done].
    destruct (as_guid (getattr tgt _ _)) as [v|]; [|done].
    simpl. unfold nx.number_of_edges in *. simpl.
    destruct (nx.edges G0 !! (u, v)) eqn:He.
    + rewrite map_size_insert_Some by eauto. lia.
    + rewrite map_size_insert_None by done. lia.
  - simpl. unfold nx.number_of_edges. rewrite populate_nodes_edges.
    by rewrite map_size_empty.
Qed.

Lemma edges_at_most_counted_witness :
  nx.number_of_edges
    (match build_graph sample.twice_contained with
     | Ok (G, _) => G
     | Raise _ => nx.empty
     end) ≤ 2.
Proof.
  destruct (build_graph sample.twice_contained) as [[G n]|e] eqn:Hb;
    [|by vm_compute in Hb].
  assert (n = 2) as Hn by (vm_compute in Hb; by injection Hb as _ <-).
  rewrite <-Hn. by apply (edges_at_most_counted sample.twice_contained G n).
Defined.

(** A model none of whose products carries a non-empty [GlobalId] builds,
    if it builds at all, the empty graph, and no edge is counted. *)
Theorem no_identified_product_no_graph m G n :
  (∀ item g, item ∈ by_type m "IfcProduct" →
             attr (VEnt item) "GlobalId" = Ok (VStr g) → g = "") →
  build_graph m = Ok (G, n) →
  G = nx.empty ∧ n = 0.
Proof.
  intros Hnone Hb.
  assert (populate_nodes m = nx.empty) as Hempty.
  { pose proof (populate_nodes_edges m) as He.
    destruct (populate_nodes m) as [N E] eqn:HG. simpl in He. subst E.
    f_equal. apply map_empty. intros g. apply eq_None_not_Some.
    change N with (nx.nodes {| nx.nodes := N; nx.edges := ∅ |}). rewrite <-HG.
    rewrite populate_nodes_lookup. intros (item & Hin & Hg & Hne).
    by apply Hne, (Hnone item). }
  unfold build_graph in Hb. rewrite Hempty in Hb.
  apply (populate_edges_invariant (λ st, st = (nx.empty, 0))) in Hb.
  - by injection Hb as -> ->.
  - intros G0 n0 src tgt rel lbl [= -> ->].
    unfold add_relationship_edge, count_edge.
    destruct (negb _); [done|].
    destruct (as_guid (getattr src _ _)) as [u|]; [|done].
    simpl. by rewrite lookup_empty.
  - done.
Qed.

Lemma no_identified_product_no_graph_witness :
  match build_graph (sample.model_of [sample.anonymous]) with
  | Ok (G, n) => G = nx.empty ∧ n = 0
  | Raise _ => False
  end.
Proof.
  destruct (build_graph (sample.model_of [sample.anonymous])) as [[G n]|e] eqn:Hb;
    [|by vm_compute in Hb].
  apply (no_identified_product_no_graph (sample.model_of [sample.anonymous]) G n);
    [|done].
  intros item g Hin Hg. apply list_elem_of_singleton in Hin as ->.
  by vm_compute in Hg.
Defined.

End graph_more.

(** ** More on the property extractor *)

Section extractor_more.
Import ifc_parser.

(** The keys of every dict the walk appends, in order. *)
Definition record_keys : list string :=
  ["IFC_Entity"; "IFC_Name"; "IFC_GlobalId";
   "PropertySet"; "PropertyName"; "PropertyValue"].

(** The name the rows are tagged with: the one of the header, or the
    sentinel when the header has none or reading it raised. *)
Definition header_name (m : IfcModel) : Val :=
  match header_file_name m with
  | Ok (Some name) => name
  | _ => VStr "Unknown"
  end.

Lemma relation_records_keys inst acc rel acc' :
  relation_records inst acc rel = Ok acc' →
  Forall (λ r : pd.record, r.*1 = record_keys) acc →
  Forall (λ r : pd.record, r.*1 = record_keys) acc'.
Proof.
  unfold relation_records. intros H Hacc.
  destruct (is_a_call rel _) as [[]|]; simpl in H; [|by injection H as <-|done].
  destruct (attr rel _) as [pdef|]; simpl in H; [|done].
  destruct (is_a_call pdef _) as [[]|]; simpl in H; [|by injection H as <-|done].
  destruct (hasattr pdef "HasProperties"); [|by injection H as <-].
  destruct (attr pdef _) as [hp|]; simpl in H; [|done].
  destruct (py_iter hp) as [props|]; simpl in H; [|done].
  injection H as <-. apply Forall_app. split; [done|].
  apply Forall_fmap, Forall_true. done.
Qed.

Lemma instance_records_keys acc inst acc' :
  instance_records acc inst = Ok acc' →
  Forall (λ r : pd.record, r.*1 = record_keys) acc →
  Forall (λ r : pd.record, r.*1 = record_keys) acc'.
Proof.
  unfold instance_records. intros H Hacc.
  destruct (hasattr _ _); [|by injection H as <-].
  destruct (attr _ _) as [v|]; simpl in H; [|done].
  destruct (py_iter v) as [rels|]; simpl in H; [|done].
  eapply (for_each_invariant (A:=Val)
            (λ acc, Forall (λ r : pd.record, r.*1 = record_keys) acc));
    [|exact H|exact Hacc].
  intros s x s'. apply relation_records_keys.
Qed.

Lemma extracted_data_list_keys m l :
  extracted_data_list m = Ok l →
  Forall (λ r : pd.record, r.*1 = record_keys) l.
Proof.
  intros H.
  eapply (for_each_invariant (A:=Entity)
            (λ acc, Forall (λ r : pd.record, r.*1 = record_keys) acc));
    [|exact H|by apply Forall_nil].
  intros s x s'. apply instance_records_keys.
Qed.

(** The labels seen in a second copy are not kept from the first. *)
Lemma remove_dups_app_subseteq (l1 l2 : list string) :
  l1 ⊆ l2 → remove_dups (l1 ++ l2) = remove_dups l2.
Proof.
  induction l1 as [|x l1 IH]; simpl; intros Hsub; [done|].
  destruct (decide_rel elem_of x (l1 ++ l2)) as [_|Hx].
  - apply IH. intros y Hy. apply Hsub. by apply list_elem_of_further.
  - destruct Hx. apply elem_of_app. right. apply Hsub, list_elem_of_here.
Qed.

Lemma from_records_columns (l : list pd.record) ks :
  NoDup ks → l ≠ [] → Forall (λ r : pd.record, r.*1 = ks) l →
  remove_dups (concat (map (λ r : pd.record, r.*1) l)) = ks.
Proof.
  intros Hnd Hne Hl. induction Hl as [|r l Hr Hl IH]; [done|]. simpl.
  rewrite Hr. destruct l as [|r' l'].
  - simpl. rewrite app_nil_r. by apply remove_dups_NoDup_id.
  - rewrite remove_dups_app_subseteq; [by apply IH|].
    apply Forall_cons in Hl as [Hr' _]. simpl. rewrite Hr'.
    intros y Hy. apply elem_of_app. by left.
Qed.

(** A dict read key by key, in the order of its keys. *)
Lemma dict_get_own_keys (r : pd.record) :
  NoDup r.*1 → map (λ c, default VNaN (dict_get c r)) r.*1 = r.*2.
Proof.
  induction r as [|[k v] r IH]; simpl; [done|]. intros Hnd.
  apply NoDup_cons in Hnd as [Hk Hnd]. rewrite decide_True by done. simpl.
  f_equal. etrans; [|exact (IH Hnd)]. apply map_ext_in. intros c Hc.
  rewrite decide_False; [done|]. intros ->. apply Hk.
  by apply list_elem_of_In.
Qed.

Lemma record_keys_NoDup : NoDup record_keys.
Proof. compute_done. Qed.

Lemma output_columns_NoDup : NoDup output_columns.
Proof. compute_done. Qed.

(** What the extractor makes of the dicts of a walk that found some. *)
Lemma table_of_records (l : list pd.record) name :
  l ≠ [] → Forall (λ r : pd.record, r.*1 = record_keys) l →
  let df := pd.from_records l in
  pd.empty df = false
  ∧ pd.select output_columns (pd.insert_first "FileName" name df)
    = Some {| pd.columns := output_columns;
              pd.rows := map (λ r : pd.record, name :: r.*2) l |}.
Proof.
  intros Hne Hl. unfold pd.from_records.
  rewrite (from_records_columns l record_keys record_keys_NoDup Hne Hl).
  split.
  - unfold pd.empty. simpl. by destruct l.
  - unfold pd.select. simpl pd.columns.
    replace (forallb _ output_columns) with true by (by vm_compute).
    f_equal. f_equal. unfold pd.cell, pd.insert_first. simpl pd.columns.
    simpl pd.rows. rewrite !map_map.
    apply map_ext_in. intros r Hr.
    apply list_elem_of_In in Hr.
    pose proof (proj1 (Forall_forall _ _) Hl r Hr) as Hk. simpl in Hk.
    change ("FileName" :: record_keys) with output_columns.
    rewrite row_by_labels.
    + f_equal. rewrite <-dict_get_own_keys by (rewrite Hk; apply record_keys_NoDup).
      by rewrite Hk.
    + apply output_columns_NoDup.
    + done.
Qed.

Lemma extract_opened path w m :
  ifcopenshell_open w path = Ok m →
  ∃ w', (w' = w ∨ w' = print (LogHeaderWarning path) w)
    ∧ extract_properties_from_ifc path w
      = match extracted_data_list m with
        | Raise e => (w', Raise e)
        | Ok [] => (w', Ok pd.DataFrame_new)
        | Ok l => (w', Ok {| pd.columns := output_columns;
                             pd.rows := map (λ r : pd.record, header_name m :: r.*2) l |})
        end.
Proof.
  intros Hopen. unfold extract_properties_from_ifc, header_name. rewrite Hopen.
  set (w' := match header_file_name m with
             | Raise _ => print (LogHeaderWarning path) w
             | _ => w
             end).
  set (name := match header_file_name m with
               | Ok (Some name) => name
               | _ => VStr "Unknown"
               end).
  exists w'. split.
  { unfold w'. destruct (header_file_name m) as [[?|]|]; auto. }
  replace (match header_file_name m with
           | Ok (Some name) => (w, name)
           | Ok None => (w, VStr "Unknown")
           | Raise _ => (print (LogHeaderWarning path) w, VStr "Unknown")
           end) with (w', name)
    by (unfold w', name; by destruct (header_file_name m) as [[?|]|]).
  destruct (extracted_data_list m) as [l|e] eqn:Hl; [|done].
  destruct l as [|r l]; [done|].
  pose proof (extracted_data_list_keys _ _ Hl) as Hkeys.
  destruct (table_of_records (r :: l) name) as [Hempty Hsel]; [done..|].
  rewrite Hempty. simpl negb. cbv iota. by rewrite Hsel.
Qed.

(** The exceptions a loop lets through are those of its body. *)
Lemma for_each_raises {A S} (body : S → A → Exc S) xs s e :
  for_each body xs s = Raise e → ∃ s0 x, x ∈ xs ∧ body s0 x = Raise e.
Proof.
  revert s. induction xs as [|x xs IH]; intros s; simpl; [done|].
  destruct (body s x) as [s'|e'] eqn:Hb; simpl.
  - intros (s0 & y & Hy & H)%IH. exists s0, y. split; [|done].
    by apply list_elem_of_further.
  - intros [= ->]. exists s, x. split; [apply list_elem_of_here|done].
Qed.

Lemma walk_raises m e :
  extracted_data_list m = Raise e → e = AttributeError ∨ e = TypeError.
Proof.
  intros (acc & inst & _ & H)%for_each_raises.
  unfold instance_records in H.
  destruct (hasattr _ _); [|done].
  destruct (attr (VEnt inst) _) as [v|e1] eqn:Hv; simpl in H.
  2:{ injection H as <-. simpl in Hv. destruct (dict_get _ _); naive_solver. }
  destruct v; simpl in H; try (injection H as <-; by right).
  apply for_each_raises in H as (acc' & rel & _ & H).
  unfold relation_records in H.
  destruct rel as [| | | | |r|]; simpl in H; try (injection H as <-; by left).
  destruct (is_a_type r _); [|done].
  destruct (dict_get "RelatingPropertyDefinition" _) as [pdef|]; simpl in H;
    [|injection H as <-; by left].
  destruct pdef as [| | | | |d|]; simpl in H; try (injection H as <-; by left).
  destruct (is_a_type d _); [|done].
  destruct (bool_decide _); [|done].
  destruct (dict_get "HasProperties" _) as [hp|]; simpl in H;
    [|injection H as <-; by left].
  destruct hp; simpl in H; try (injection H as <-; by right). done.
Qed.



(** The extractor raises only what the walk over the elements raised, an
    [AttributeError] or a [TypeError]; the reordering of the columns never
    fails, and the console holds at most the warning about the header. *)
Theorem extraction_raises_from_walk path w w' e :
  extract_properties_from_ifc path w = (w', Raise e) →
  ∃ m, ifcopenshell_open w path = Ok m
     ∧ extracted_data_list m = Raise e
     ∧ (e = AttributeError ∨ e = TypeError)
     ∧ (w' = w ∨ w' = print (LogHeaderWarning path) w).
Proof.
  intros H. destruct (ifcopenshell_open w path) as [m|e0] eqn:Hopen.
  - destruct (extract_opened path w m Hopen) as (w0 & Hw0 & Heq).
    rewrite H in Heq. exists m.
    destruct (extracted_data_list m) as [l|e1] eqn:Hl.
    + by destruct l.
    + injection Heq as -> ->. split_and!; try done. by eapply walk_raises.
  - unfold extract_properties_from_ifc in H. by rewrite Hopen in H.
Qed.

Lemma extraction_raises_from_walk_witness :
  ∃ m, ifcopenshell_open (sample.holding sample.with_hollow_pset)
         "uploads/model.ifc" = Ok m
     ∧ extracted_data_list m = Raise TypeError
     ∧ (TypeError = AttributeError ∨ TypeError = TypeError)
     ∧ (sample.holding sample.with_hollow_pset
        = sample.holding sample.with_hollow_pset
        ∨ sample.holding sample.with_hollow_pset
          = print (LogHeaderWarning "uploads/model.ifc")
              (sample.holding sample.with_hollow_pset)).
Proof.
  apply (extraction_raises_from_walk "uploads/model.ifc"
           (sample.holding sample.with_hollow_pset)
           (sample.holding sample.with_hollow_pset) TypeError).
  by vm_compute.
Defined.

(** A body that leaves the state alone leaves the loop's state alone. *)
Lemma for_each_skips {A S} (body : S → A → Exc S) xs s :
  (∀ x, x ∈ xs → body s x = Ok s) → for_each body xs s = Ok s.
Proof.
  induction xs as [|x xs IH]; simpl; intros Hb; [done|].
  rewrite Hb by apply list_elem_of_here. simpl. apply IH.
  intros y Hy. apply Hb. by apply list_elem_of_further.
Qed.

(** Elements without property sets are no error: when every relation
    under [IsDefinedBy] of every element is of another kind than
    [IfcRelDefinesByProperties], or defines by something else than an
    [IfcPropertySet] (quantities, say), the extractor answers
    [pd.DataFrame()]. *)
Theorem elements_without_property_sets path w m :
  ifcopenshell_open w path = Ok m →
  (∀ inst, inst ∈ by_type m "IfcElement" →
     hasattr (VEnt inst) "IsDefinedBy" = true →
     ∃ rels, attr (VEnt inst) "IsDefinedBy" = Ok (VList (VEnt <$> rels))
       ∧ ∀ rel, rel ∈ rels →
           is_a_type rel "IfcRelDefinesByProperties" = false
           ∨ ∃ d, attr (VEnt rel) "RelatingPropertyDefinition" = Ok (VEnt d)
                ∧ is_a_type d "IfcPropertySet" = false) →
  (extract_properties_from_ifc path w).2 = Ok pd.DataFrame_new.
Proof.
  intros Hopen Hnone.
  destruct (extract_opened path w m Hopen) as (w0 & _ & ->).
  assert (extracted_data_list m = Ok []) as ->; [|done].
  apply for_each_skips. intros inst Hinst. unfold instance_records.
  destruct (hasattr (VEnt inst) "IsDefinedBy") eqn:Hhas; [|done].
  destruct (Hnone inst Hinst Hhas) as (rels & -> & Hrels). simpl.
  apply for_each_skips. intros rel Hrel.
  apply list_elem_of_fmap in Hrel as (r & -> & Hr).
  unfold relation_records. cbn [is_a_call mbind Exc_bind].
  destruct (Hrels r Hr) as [->|(d & Hd & Hps)]; [done|].
  destruct (is_a_type r _); [|done].
  rewrite Hd. cbn [is_a_call mbind Exc_bind]. by rewrite Hps.
Qed.

Lemma elements_without_property_sets_witness :
  (extract_properties_from_ifc "uploads/model.ifc"
     (sample.holding sample.without_psets)).2 = Ok pd.DataFrame_new.
Proof.
  apply (elements_without_property_sets "uploads/model.ifc"
           (sample.holding sample.without_psets) sample.without_psets);
    [by vm_compute|].
  intros inst Hinst Hhas.
  assert (inst = sample.typed_wall ∨ inst = sample.anonymous) as [->| ->].
  { vm_compute in Hinst. set_solver. }
  - exists [sample.defines_by_type].
    split; [done|]. intros rel ->%list_elem_of_singleton. by left.
  - by vm_compute in Hhas.
Defined.

End extractor_more.

(** ** More on the artifacts of a parse *)

Section artifacts_more.
Import ifc_parser.

(** The two artifacts of one file never share a path. *)
Lemma csv_json_paths_differ output_dir file_id :
  csv_path_of output_dir file_id ≠ json_path_of output_dir file_id.
Proof.
  unfold csv_path_of, json_path_of, os.path_join.
  assert (os.starts_with_sep (file_id +:+ ".csv")
          = os.starts_with_sep (file_id +:+ ".json")) as <-
    by (by destruct file_id).
  destruct (os.starts_with_sep _).
  - by intros ?%(inj (String.app file_id)).
  - destruct (_ || _).
    + by intros ?%(inj (String.app output_dir))%(inj (String.app file_id)).
    + intros H%(inj (String.app output_dir)). injection H as H.
      by apply (inj (String.app file_id)) in H.
Qed.

Lemma write_file_ok p d w w' :
  os.write_file p d w = (w', Ok ()) →
  files w' = <[p := d]> (files w) ∧ dirs w' = dirs w.
Proof.
  unfold os.write_file. destruct (bool_decide _); [done|].
  destruct (write_fault w p); [|done..]. by intros [= <-].
Qed.

Lemma save_outputs_ok csv json df w w' :
  save_outputs csv json df w = (w', Ok ()) →
  files w' = <[json := JsonFile (map pd.clean_record (pd.to_records df))]>
               (<[csv := CsvFile df]> (files w))
  ∧ dirs w' = dirs w.
Proof.
  unfold save_outputs.
  destruct (os.write_file csv _ w) as [w1 [[]|e]] eqn:H1; [|done].
  apply write_file_ok in H1 as [Hf1 Hd1].
  destruct (os.write_file json _ _) as [w2 [[]|e]] eqn:H2; [|done].
  apply write_file_ok in H2 as [Hf2 Hd2]. simpl in Hf2, Hd2.
  intros [= <-]. simpl. by rewrite Hf2, Hf1, Hd2, Hd1.
Qed.

Lemma ensure_output_dir_ready output_dir file_id w w' :
  ensure_output_dir output_dir file_id w = (w', true) →
  files w' = files w
  ∧ (bool_decide (is_Some (files w !! output_dir)) = true ∨ output_dir ∈ dirs w').
Proof.
  unfold ensure_output_dir, os.path_exists.
  destruct (bool_decide (is_Some _)) eqn:Hfile; simpl.
  { intros [= <-]. auto. }
  destruct (bool_decide (output_dir ∈ dirs w)) eqn:Hdir; simpl.
  { intros [= <-]. split; [done|]. right. by apply bool_decide_eq_true in Hdir. }
  unfold os.makedirs. destruct (makedirs_fails w output_dir); [done|].
  intros [= <-]. split; [done|]. right. simpl. set_solver.
Qed.

(** No record of the JSON artifact holds a NaN. *)
Lemma clean_record_no_NaN (r : pd.record) :
  Forall (λ kv : string * Val, kv.2 ≠ VNaN) (pd.clean_record r).
Proof.
  apply Forall_fmap, Forall_true. intros [k v]. simpl. by destruct v.
Qed.

(** A parse that returns the paths, in terms of the files it leaves. *)
Lemma parse_returns ifc_file_path output_dir file_id w w' r :
  parse_ifc_to_files ifc_file_path output_dir file_id w = (w', Ok r) →
  r = (None, None)
  ∨ r = (Some (csv_path_of output_dir file_id),
         Some (json_path_of output_dir file_id))
    ∧ ∃ df, (extract_properties_from_ifc ifc_file_path w).2 = Ok df
        ∧ pd.empty df = false
        ∧ files w'
          = <[json_path_of output_dir file_id
              := JsonFile (map pd.clean_record (pd.to_records df))]>
              (<[csv_path_of output_dir file_id := CsvFile df]> (files w))
        ∧ os.path_exists w' output_dir = true.
Proof.
  unfold parse_ifc_to_files.
  set (w0 := print (LogStartParsing ifc_file_path file_id) w).
  pose proof (extract_result_same_disk ifc_file_path w w0 (same_disk_print _ w))
    as Hr.
  pose proof (extract_same_disk ifc_file_path w0) as Hsd1.
  destruct (extract_properties_from_ifc ifc_file_path w0) as [w1 r1].
  simpl in Hr, Hsd1. destruct r1 as [df|e]; [|done].
  destruct (pd.empty df) eqn:Hempty; [intros [= _ <-]; by left|].
  destruct (ensure_output_dir output_dir file_id w1) as [wd ready] eqn:Hens.
  destruct ready; simpl; [|intros [= _ <-]; by left].
  apply ensure_output_dir_ready in Hens as [Hfd Hdir].
  destruct (save_outputs _ _ df wd) as [w2 [[]|e]] eqn:Hsave;
    [|intros [= _ <-]; by left].
  apply save_outputs_ok in Hsave as [Hf2 Hd2].
  intros [= <- <-]. right. split; [done|]. exists df.
  assert (files wd = files w) as Hfw.
  { rewrite Hfd. by destruct Hsd1 as (<- & _). }
  rewrite Hfw in Hf2.
  split_and!; [done|done|done|].
  unfold os.path_exists. apply orb_true_iff.
  destruct Hdir as [Hfile|Hin].
  - left. apply bool_decide_eq_true in Hfile as [d Hd].
    destruct Hsd1 as (Hfiles & _). simpl in Hfiles. rewrite <-Hfiles in Hd.
    apply bool_decide_eq_true. rewrite Hf2.
    destruct (decide (output_dir = json_path_of output_dir file_id)) as [<-|?];
      [rewrite lookup_insert_eq; eauto|rewrite lookup_insert_ne by done].
    destruct (decide (output_dir = csv_path_of output_dir file_id)) as [<-|?];
      [rewrite lookup_insert_eq; eauto|rewrite lookup_insert_ne by done].
    eauto.
  - right. apply bool_decide_eq_true. by rewrite Hd2.
Qed.

(** What [parse_ifc_to_files] returns without raising is the pair
    [(None, None)] or the pair of both paths, never one path alone; and
    when it returns the paths, the table was not empty, the CSV holds it,
    the JSON holds its records with [None] for every missing value, both
    under the names made of the file id, every other file is as it was and
    the output directory exists. *)
Theorem parsed_artifacts_on_disk ifc_file_path output_dir file_id w w' r :
  parse_ifc_to_files ifc_file_path output_dir file_id w = (w', Ok r) →
  r = (None, None)
  ∨ r = (Some (csv_path_of output_dir file_id),
         Some (json_path_of output_dir file_id))
    ∧ ∃ df, (extract_properties_from_ifc ifc_file_path w).2 = Ok df
        ∧ pd.empty df = false
        ∧ files w' !! csv_path_of output_dir file_id = Some (CsvFile df)
        ∧ (∃ records,
             files w' !! json_path_of output_dir file_id = Some (JsonFile records)
             ∧ records = map pd.clean_record (pd.to_records df)
             ∧ Forall (Forall (λ kv : string * Val, kv.2 ≠ VNaN)) records)
        ∧ (∀ p, p ≠ csv_path_of output_dir file_id →
                p ≠ json_path_of output_dir file_id →
                files w' !! p = files w !! p)
        ∧ os.path_exists w' output_dir = true.
Proof.
  intros [->|(-> & df & Hdf & Hempty & Hfiles & Hdir)]%parse_returns; [by left|].
  right. split; [done|]. exists df.
  pose proof (csv_json_paths_differ output_dir file_id) as Hne.
  split_and!; [done|done| | | |done].
  - rewrite Hfiles, lookup_insert_ne by done. apply lookup_insert_eq.
  - eexists. split_and!; [rewrite Hfiles; apply lookup_insert_eq|done|].
    apply Forall_fmap, Forall_true. intros r. apply clean_record_no_NaN.
  - intros p Hp1 Hp2. by rewrite Hfiles, !lookup_insert_ne.
Qed.

Lemma parsed_artifacts_on_disk_witness :
  let out := parse_ifc_to_files "uploads/house.ifc" "cache" sample.house_id
               sample.world in
  (Some sample.house_csv, Some sample.house_json) = (None, None)
  ∨ (Some sample.house_csv, Some sample.house_json)
    = (Some (csv_path_of "cache" sample.house_id),
       Some (json_path_of "cache" sample.house_id))
    ∧ ∃ df, (extract_properties_from_ifc "uploads/house.ifc" sample.world).2 = Ok df
        ∧ pd.empty df = false
        ∧ files out.1 !! csv_path_of "cache" sample.house_id = Some (CsvFile df)
        ∧ (∃ records,
             files out.1 !! json_path_of "cache" sample.house_id
             = Some (JsonFile records)
             ∧ records = map pd.clean_record (pd.to_records df)
             ∧ Forall (Forall (λ kv : string * Val, kv.2 ≠ VNaN)) records)
        ∧ (∀ p, p ≠ csv_path_of "cache" sample.house_id →
                p ≠ json_path_of "cache" sample.house_id →
                files out.1 !! p = files sample.world !! p)
        ∧ os.path_exists out.1 "cache" = true.
Proof.
  intros out.
  apply (parsed_artifacts_on_disk "uploads/house.ifc" "cache" sample.house_id
           sample.world out.1 (Some sample.house_csv, Some sample.house_json)).
  by vm_compute.
Defined.

End artifacts_more.

(** ** The worker, run to its end *)

Section worker_more.
Import ifc_parser app.

Lemma both_paths_of_parse output_dir file_id :
  both_paths (Some (csv_path_of output_dir file_id),
              Some (json_path_of output_dir file_id))
  = Some (csv_path_of output_dir file_id, json_path_of output_dir file_id).
Proof.
  unfold both_paths, csv_path_of, json_path_of.
  rewrite !bool_decide_eq_false_2; [done|..];
    apply path_join_nonempty, append_nonempty; done.
Qed.

(** A worker that finds its task runs to the end of the function and
    leaves the task either completed, with the paths of both artifacts
    (relative to the backend) as its result and no error, the two files
    being on disk and holding the table of the model; or failed, with an
    error text and the result it had before.  It touches no other task and
    not the registry of uploads. *)
Theorem worker_run_outcome cfg file_id ifc_file_path output_dir st t :
  parsing_status st !! file_id = Some t →
  let fin := parse_ifc_file_async cfg file_id ifc_file_path output_dir st in
  fin.1 = Done
  ∧ uploaded_files_metadata fin.2 = uploaded_files_metadata st
  ∧ (∀ other, other ≠ file_id →
       parsing_status fin.2 !! other = parsing_status st !! other)
  ∧ ∃ t', parsing_status fin.2 !! file_id = Some t'
      ∧ (status t' = completed
         ∧ result t'
           = Some {| csv_path := relpath cfg (csv_path_of output_dir file_id);
                     json_path := relpath cfg (json_path_of output_dir file_id) |}
         ∧ error t' = None
         ∧ (∃ df, (extract_properties_from_ifc ifc_file_path (world st)).2 = Ok df
              ∧ pd.empty df = false
              ∧ files (world fin.2) !! csv_path_of output_dir file_id
                = Some (CsvFile df)
              ∧ files (world fin.2) !! json_path_of output_dir file_id
                = Some (JsonFile (map pd.clean_record (pd.to_records df))))
         ∨ status t' = failed ∧ result t' = result t ∧ is_Some (error t')).
Proof.
  intros Ht fin. subst fin. unfold parse_ifc_file_async.
  set (F := λ ps : Pc * AppState,
              worker_step cfg file_id ifc_file_path output_dir ps.1 ps.2).
  change (Nat.iter 5 F (AtStart, st)) with (F (F (F (F (F (AtStart, st)))))).
  set (st1 := with_world (print (LogAsyncStarted file_id ifc_file_path) (world st))
                (update_task (set_status processing) file_id st)).
  assert (F (AtStart, st) = (AtParse, st1)) as ->.
  { subst F. cbn [fst snd]. unfold worker_step. by rewrite Ht. }
  destruct (parse_ifc_to_files ifc_file_path output_dir file_id (world st1))
    as [w2 r] eqn:Hparse.
  assert (F (AtParse, st1) = (AtBranch r, with_world w2 st1)) as ->.
  { subst F. cbn [fst snd]. unfold worker_step. by rewrite Hparse. }
  assert (∀ st0 msg, F (AtSetError msg, st0)
            = (Done, with_world
                       (print (match msg with
                               | NoOutputFiles => LogAsyncFailed file_id
                               | ExceptionText e => LogAsyncException file_id e
                               end) (world st0))
                       (update_task (set_error (Some msg)) file_id st0)))
    as Herr by done.
  assert (∀ st0, F (Done, st0) = (Done, st0)) as Hdone by done.
  assert (∀ msg,
    let fin := F (F (F (AtSetError msg,
                        update_task (set_status failed) file_id
                          (with_world w2 st1)))) in
    fin.1 = Done
    ∧ uploaded_files_metadata fin.2 = uploaded_files_metadata st
    ∧ (∀ other, other ≠ file_id →
         parsing_status fin.2 !! other = parsing_status st !! other)
    ∧ ∃ t', parsing_status fin.2 !! file_id = Some t'
        ∧ status t' = failed ∧ result t' = result t ∧ is_Some (error t'))
    as Hfailed.
  { intros msg. rewrite Herr, !Hdone. split_and!; [done|done| |].
    - intros other Hne. subst st1.
      cbn [snd parsing_status with_world update_task with_tasks].
      by rewrite !lookup_alter_ne.
    - eexists. split.
      + subst st1. cbn [snd parsing_status with_world update_task with_tasks].
        rewrite !lookup_alter_eq, Ht. done.
      + simpl. eauto. }
  destruct r as [pr|e].
  - apply parse_returns in Hparse
      as [->|(-> & df & Hdf & Hempty & Hfiles & _)].
    + assert (F (AtBranch (Ok (None, None)), with_world w2 st1)
              = (AtSetError NoOutputFiles,
                 update_task (set_status failed) file_id (with_world w2 st1)))
        as -> by done.
      destruct (Hfailed NoOutputFiles) as (H1 & H2 & H3 & t' & H4 & H5).
      split_and!; [done..|]. exists t'. split; [done|]. by right.
    + set (csv := csv_path_of output_dir file_id) in *.
      set (json := json_path_of output_dir file_id) in *.
      assert (F (AtBranch (Ok (Some csv, Some json)), with_world w2 st1)
              = (AtSetResult csv json,
                 update_task (set_status completed) file_id (with_world w2 st1)))
        as ->.
      { subst F csv json. cbn [fst snd]. unfold worker_step.
        by rewrite both_paths_of_parse. }
      assert (∀ st0, F (AtSetResult csv json, st0)
                = (AtClearError csv json,
                   update_task
                     (set_result (Some {| csv_path := relpath cfg csv;
                                          json_path := relpath cfg json |}))
                     file_id st0)) as -> by done.
      assert (∀ st0, F (AtClearError csv json, st0)
                = (Done,
                   with_world
                     (print (LogAsyncCompleted file_id csv json)
                        (world (update_task (set_error None) file_id st0)))
                     (update_task (set_error None) file_id st0))) as -> by done.
      split_and!; [done|done| |].
      * intros other Hne. subst st1.
        cbn [snd parsing_status with_world update_task with_tasks].
        by rewrite !lookup_alter_ne.
      * eexists. split.
        { subst st1. cbn [snd parsing_status with_world update_task with_tasks].
          rewrite !lookup_alter_eq, Ht. done. }
        left. split_and!; [done..|]. exists df.
        pose proof (csv_json_paths_differ output_dir file_id) as Hne.
        split_and!; [| done | |].
        -- rewrite <-Hdf. apply extract_result_same_disk, same_disk_print.
        -- cbn [snd world with_world update_task with_tasks print files].
           rewrite Hfiles. rewrite lookup_insert_ne by done.
           apply lookup_insert_eq.
        -- cbn [snd world with_world update_task with_tasks print files].
           rewrite Hfiles. apply lookup_insert_eq.
  - assert (F (AtBranch (Raise e), with_world w2 st1)
            = (AtSetError (ExceptionText e),
               update_task (set_status failed) file_id (with_world w2 st1)))
      as -> by done.
    destruct (Hfailed (ExceptionText e)) as (H1 & H2 & H3 & t' & H4 & H5).
    split_and!; [done..|]. exists t'. split; [done|]. by right.
Qed.

Lemma worker_run_outcome_witness :
  let fin := parse_ifc_file_async sample.cfg sample.house_id
               "uploads/house.ifc" "cache" (state sample.uploaded) in
  fin.1 = Done
  ∧ uploaded_files_metadata fin.2 = uploaded_files_metadata (state sample.uploaded)
  ∧ (∀ other, other ≠ sample.house_id →
       parsing_status fin.2 !! other
       = parsing_status (state sample.uploaded) !! other)
  ∧ ∃ t', parsing_status fin.2 !! sample.house_id = Some t'
      ∧ (status t' = completed
         ∧ result t'
           = Some {| csv_path := relpath sample.cfg
                                   (csv_path_of "cache" sample.house_id);
                     json_path := relpath sample.cfg
                                    (json_path_of "cache" sample.house_id) |}
         ∧ error t' = None
         ∧ (∃ df, (extract_properties_from_ifc "uploads/house.ifc"
                     (world (state sample.uploaded))).2 = Ok df
              ∧ pd.empty df = false
              ∧ files (world fin.2) !! csv_path_of "cache" sample.house_id
                = Some (CsvFile df)
              ∧ files (world fin.2) !! json_path_of "cache" sample.house_id
                = Some (JsonFile (map pd.clean_record (pd.to_records df))))
         ∨ status t' = failed
           ∧ result t' = result (new_task "house.ifc" "uploads/house.ifc"
                                   "IFC4" "Unknown")
           ∧ is_Some (error t')).
Proof.
  apply (worker_run_outcome sample.cfg sample.house_id "uploads/house.ifc"
           "cache" (state sample.uploaded)
           (new_task "house.ifc" "uploads/house.ifc" "IFC4" "Unknown")).
  by vm_compute.
Defined.

End worker_more.

(** ** More on the three tiers *)

Section cache_more.
Import ifc_parser app.

(** What the first block leaves when it does not return. *)
Lemma disk_tier_falls_through file_id file_info w w1 file_info1 :
  disk_tier file_id file_info w = (w1, file_info1, None) →
  file_info1 = file_info ∧ same_disk w w1.
Proof.
  unfold disk_tier. destruct (cached_df_path file_info) as [p|]; [|by intros [= <- <-]].
  destruct (_ && _); [|by intros [= <- <-]].
  destruct (read_pickle w p); [done|]. by intros [= <- <-].
Qed.

(** What the first block leaves when it returns. *)
Lemma disk_tier_returns file_id file_info w w1 file_info1 df :
  disk_tier file_id file_info w = (w1, file_info1, Some df) →
  file_info1 = set_processed_data_df df file_info ∧ same_disk w w1
  ∧ ∃ p, cached_df_path file_info = Some p ∧ files w !! p = Some (PickleFile df).
Proof.
  unfold disk_tier. destruct (cached_df_path file_info) as [p|]; [|done].
  destruct (_ && _); [|done].
  unfold read_pickle. destruct (files w !! p) as [[]|] eqn:Hp; try done.
  intros [= <- <- <-]. split_and!; [done|done|]. by exists p.
Qed.

(** [process_single_ifc_file] lets one exception out only: the
    [RuntimeError] of [current_app] in a thread without application
    context, raised in the handler of an extraction that failed.  The
    entry is then as it was, and so are the files. *)
Theorem process_raises_outside_context app_context cfg file_id file_info w
    w' file_info' e :
  process_single_ifc_file app_context cfg file_id file_info w
  = (w', file_info', Raise e) →
  app_context = false ∧ e = RuntimeError
  ∧ file_info' = file_info ∧ same_disk w w'
  ∧ processed_data_df file_info = None
  ∧ is_ok (extract_properties_from_ifc (saved_path file_info) w).2 = false.
Proof.
  unfold process_single_ifc_file.
  destruct (disk_tier file_id file_info w) as [[w1 fi1] [df|]] eqn:Hdisk; [done|].
  apply disk_tier_falls_through in Hdisk as [-> Hsd1].
  unfold memory_tier. destruct (processed_data_df file_info) as [df|]; [done|].
  unfold fresh_tier.
  destruct (negb _ && _); [|done].
  set (w2 := print (LogLoadingFromIfc file_id) w1).
  assert (same_disk w w2) as Hsd2 by (by etrans; [exact Hsd1|]).
  pose proof (extract_result_same_disk (saved_path file_info) w w2 Hsd2) as Hres.
  pose proof (extract_same_disk (saved_path file_info) w2) as Hsd3.
  destruct (extract_properties_from_ifc (saved_path file_info) w2) as [w3 [df|e0]].
  - destruct (negb (pd.empty df)); [|done].
    by destruct (os.write_file _ _ _) as [w4 [[]|e1]].
  - simpl in Hres, Hsd3. destruct app_context; [done|].
    intros [= <- <- <-]. split_and!; [done..| |done|by rewrite Hres].
    etrans; [exact Hsd2|]. etrans; [exact Hsd3|]. done.
Qed.

Lemma process_raises_outside_context_witness :
  false = false ∧ RuntimeError = RuntimeError
  ∧ new_file_info "model.ifc" "uploads/model.ifc" "IFC4" "Unknown"
    = new_file_info "model.ifc" "uploads/model.ifc" "IFC4" "Unknown"
  ∧ same_disk (sample.holding sample.with_hollow_pset)
      (process_single_ifc_file false sample.cfg sample.unknown_id
         (new_file_info "model.ifc" "uploads/model.ifc" "IFC4" "Unknown")
         (sample.holding sample.with_hollow_pset)).1.1
  ∧ processed_data_df
      (new_file_info "model.ifc" "uploads/model.ifc" "IFC4" "Unknown") = None
  ∧ is_ok (extract_properties_from_ifc
             (saved_path (new_file_info "model.ifc" "uploads/model.ifc"
                            "IFC4" "Unknown"))
             (sample.holding sample.with_hollow_pset)).2 = false.
Proof.
  apply (process_raises_outside_context false sample.cfg sample.unknown_id
           (new_file_info "model.ifc" "uploads/model.ifc" "IFC4" "Unknown")
           (sample.holding sample.with_hollow_pset)).
  by vm_compute.
Defined.

(** The table a call returns is the one the entry holds in memory
    afterwards, except for the [pd.DataFrame()] that stands for a model
    file that is missing or could not be parsed, which leaves the entry as
    it was.  The entry's pickle path changes only to the path made of the
    file id, and only once that file holds the returned table. *)
Theorem returned_table_is_attached app_context cfg file_id file_info w
    w' file_info' i name df :
  process_single_ifc_file app_context cfg file_id file_info w
  = (w', file_info', Ok (i, name, df)) →
  i = file_id ∧ name = original_filename file_info
  ∧ (processed_data_df file_info' = Some df
     ∧ (cached_df_path file_info' = cached_df_path file_info
        ∨ cached_df_path file_info' = Some (cache_path cfg file_id)
          ∧ files w' !! cache_path cfg file_id = Some (PickleFile df)
          ∧ pd.empty df = false)
     ∨ df = pd.DataFrame_new ∧ file_info' = file_info).
Proof.
  unfold process_single_ifc_file.
  destruct (disk_tier file_id file_info w) as [[w1 fi1] [df1|]] eqn:Hdisk.
  { apply disk_tier_returns in Hdisk as (-> & _ & _).
    intros [= <- <- <- <- <-]. split_and!; [done..|]. left. auto. }
  apply disk_tier_falls_through in Hdisk as [-> Hsd1].
  unfold memory_tier.
  destruct (processed_data_df file_info) as [df1|] eqn:Hmem.
  { intros [= <- <- <- <- <-]. split_and!; [done..|]. left. auto. }
  unfold fresh_tier.
  destruct (negb _ && _).
  2:{ intros [= <- <- <- <- <-]. split_and!; [done..|]. by right. }
  destruct (extract_properties_from_ifc _ _) as [w3 [df1|e0]].
  - destruct (negb (pd.empty df1)) eqn:Hempty.
    + destruct (os.write_file _ _ _) as [w4 [[]|e1]] eqn:Hwrite.
      * apply write_file_ok in Hwrite as [Hfiles _].
        intros [= <- <- <- <- <-]. split_and!; [done..|]. left.
        split; [done|]. right. split_and!; [done| |].
        -- simpl. rewrite Hfiles. apply lookup_insert_eq.
        -- by apply negb_true_iff.
      * intros [= <- <- <- <- <-]. split_and!; [done..|]. left. auto.
    + intros [= <- <- <- <- <-]. split_and!; [done..|]. left. auto.
  - destruct app_context; [|done].
    intros [= <- <- <- <- <-]. split_and!; [done..|]. by right.
Qed.

Lemma returned_table_is_attached_witness :
  let out := process_single_ifc_file true sample.cfg sample.house_id
               sample.house_info sample.world in
  sample.house_id = sample.house_id
  ∧ "house.ifc" = original_filename sample.house_info
  ∧ (processed_data_df out.1.2 = Some sample.house_table
     ∧ (cached_df_path out.1.2 = cached_df_path sample.house_info
        ∨ cached_df_path out.1.2 = Some (cache_path sample.cfg sample.house_id)
          ∧ files out.1.1 !! cache_path sample.cfg sample.house_id
            = Some (PickleFile sample.house_table)
          ∧ pd.empty sample.house_table = false)
     ∨ sample.house_table = pd.DataFrame_new ∧ out.1.2 = sample.house_info).
Proof.
  intros out.
  apply (returned_table_is_attached true sample.cfg sample.house_id
           sample.house_info sample.world out.1.1 out.1.2
           sample.house_id "house.ifc" sample.house_table).
  by vm_compute.
Defined.

End cache_more.

(** ** More on the batch *)

Section batch_more.
Import ifc_parser app.

(** A call changes the table and the pickle path of the entry, nothing
    else of it; on disk it writes the pickle of the file id, nothing
    else. *)
Lemma process_frame app_context cfg file_id file_info w :
  let out := process_single_ifc_file app_context cfg file_id file_info w in
  original_filename out.1.2 = original_filename file_info
  ∧ saved_path out.1.2 = saved_path file_info
  ∧ (∀ p, p ≠ cache_path cfg file_id → files out.1.1 !! p = files w !! p)
  ∧ dirs out.1.1 = dirs w.
Proof.
  intros out. subst out. unfold process_single_ifc_file.
  destruct (disk_tier file_id file_info w) as [[w1 fi1] [df1|]] eqn:Hdisk.
  { apply disk_tier_returns in Hdisk as (-> & (Hf & Hd & _) & _).
    simpl. by rewrite Hf, Hd. }
  apply disk_tier_falls_through in Hdisk as [-> (Hf & Hd & _)].
  unfold memory_tier.
  destruct (processed_data_df file_info) as [df1|] eqn:Hmem.
  { simpl. by rewrite Hf, Hd. }
  unfold fresh_tier.
  destruct (negb _ && _); [|simpl; by rewrite Hf, Hd].
  pose proof (extract_same_disk (saved_path file_info)
                (print (LogLoadingFromIfc file_id) w1)) as (Hf3 & Hd3 & _).
  destruct (extract_properties_from_ifc _ _) as [w3 [df1|e0]]; simpl in Hf3, Hd3.
  - destruct (negb (pd.empty df1)); [|simpl; by rewrite Hf, Hd, Hf3, Hd3].
    unfold os.write_file. destruct (bool_decide _); simpl.
    { by rewrite Hf, Hd, Hf3, Hd3. }
    destruct (write_fault _ _); simpl; rewrite Hf, Hd, Hf3, Hd3;
      split_and!; try done; intros p Hp; by rewrite lookup_insert_ne.
  - destruct app_context; simpl; by rewrite Hf, Hd, Hf3, Hd3.
Qed.

(** The first loop submits only ids of the request that are completed, and
    prints one line for every other id. *)
Lemma submit_loop st ids w futures w1 futures1 :
  foldl (submit st) (w, futures) ids = (w1, futures1) →
  same_disk w w1
  ∧ (∀ id, id ∈ futures1 →
           id ∈ futures ∨ id ∈ ids ∧ is_completed st id = true)
  ∧ ((∀ id, id ∈ ids → is_completed st id = false
                        ∨ uploaded_files_metadata st !! id = None) →
     futures1 = futures
     ∧ length (stdout w1) = length (stdout w) + length ids).
Proof.
  revert w futures. induction ids as [|x ids IH]; intros w futures.
  { simpl. intros [= <- <-]. split_and!; [done|auto|]. intros _. split; [done|lia]. }
  cbn [foldl]. remember (submit st (w, futures) x) as a eqn:Ha.
  unfold submit in Ha. revert Ha.
  destruct (is_completed st x) eqn:Hx; intros ->.
  - destruct (uploaded_files_metadata st !! x) as [fi|] eqn:Hfi.
    + intros (Hsd & Hin & Hnone)%IH. split_and!; [done| |].
      * intros id [[Hid| ->%list_elem_of_singleton]%elem_of_app|[Hid Hc]]%Hin.
        -- by left.
        -- right. split; [apply list_elem_of_here|done].
        -- right. split; [by apply list_elem_of_further|done].
      * intros Hall. destruct (Hall x (list_elem_of_here _ _)); congruence.
    + intros (Hsd & Hin & Hnone)%IH. split_and!.
      * etrans; [|exact Hsd]. apply same_disk_print.
      * intros id [Hid|[Hid Hc]]%Hin; [by left|].
        right. split; [by apply list_elem_of_further|done].
      * intros Hall. destruct Hnone as [-> Hlen].
        { intros id Hid. apply Hall. by apply list_elem_of_further. }
        split; [done|]. rewrite Hlen. simpl. rewrite length_app. simpl. lia.
  - intros (Hsd & Hin & Hnone)%IH. split_and!.
    + etrans; [|exact Hsd]. apply same_disk_print.
    + intros id [Hid|[Hid Hc]]%Hin; [by left|].
      right. split; [by apply list_elem_of_further|done].
    + intros Hall. destruct Hnone as [-> Hlen].
      { intros id Hid. apply Hall. by apply list_elem_of_further. }
      split; [done|]. rewrite Hlen. simpl. rewrite length_app. simpl. lia.
Qed.

(** The futures change the entries and the pickles of their own ids. *)
Lemma run_loop cfg futures w metadata results w' metadata' results' :
  foldl (run_future cfg) (w, metadata, results) futures
  = (w', metadata', results') →
  dom metadata' = dom metadata
  ∧ (∀ id, id ∉ futures → metadata' !! id = metadata !! id)
  ∧ (∀ id fi', metadata' !! id = Some fi' →
       ∃ fi, metadata !! id = Some fi
           ∧ original_filename fi' = original_filename fi
           ∧ saved_path fi' = saved_path fi)
  ∧ (∀ p, (∀ id, id ∈ futures → p ≠ cache_path cfg id) →
          files w' !! p = files w !! p)
  ∧ dirs w' = dirs w.
Proof.
  revert w metadata results.
  induction futures as [|x futures IH]; intros w metadata results; simpl.
  { intros [= <- <- <-]. split_and!; eauto. }
  destruct (metadata !! x) as [fi|] eqn:Hx.
  - pose proof (process_frame false cfg x fi w) as (Hname & Hpath & Hfiles & Hdirs).
    destruct (process_single_ifc_file false cfg x fi w) as [[w1 fi1] r].
    simpl in Hname, Hpath, Hfiles, Hdirs.
    intros (Hdom & Hother & Hkept & Hfiles' & Hdirs')%IH. split_and!.
    + rewrite Hdom, dom_insert_L.
      assert (x ∈ dom metadata) by (apply elem_of_dom; eauto). set_solver.
    + intros id [Hne Hid]%not_elem_of_cons.
      by rewrite Hother, lookup_insert_ne.
    + intros id fi' (fi0 & Hfi0 & Hn & Hp)%Hkept.
      destruct (decide (x = id)) as [->|Hne].
      * rewrite lookup_insert_eq in Hfi0. injection Hfi0 as <-.
        exists fi. split_and!; [done|congruence..].
      * rewrite lookup_insert_ne in Hfi0 by done. by exists fi0.
    + intros p Hp. rewrite Hfiles'.
      * apply Hfiles, Hp, list_elem_of_here.
      * intros id Hid. by apply Hp, list_elem_of_further.
    + by rewrite Hdirs'.
  - intros (Hdom & Hother & Hkept & Hfiles' & Hdirs')%IH. split_and!; try done.
    + intros id [Hne Hid]%not_elem_of_cons. by apply Hother.
    + intros p Hp. apply Hfiles'. intros id Hid.
      by apply Hp, list_elem_of_further.
Qed.

(** The second loop only prints. *)
Lemma collect_loop results w frames n w' frames' n' :
  foldl collect (w, frames, n) results = (w', frames', n') →
  same_disk w w' ∧ (results = [] → frames' = frames).
Proof.
  revert w frames n. induction results as [|r results IH]; intros w frames n; simpl.
  { by intros [= <- <- <-]. }
  destruct r as [[[i name] df]|e]; [destruct (negb (pd.empty df))|];
    intros [Hsd _]%IH; (split; [|done]); try done;
    (etrans; [|exact Hsd]); apply same_disk_print.
Qed.

(** A request none of whose ids is eligible (not completed, unknown to the
    task table, or without an upload entry) is no error: the answer is
    200 with no data; both registries, the files and the directories are
    as they were, and the console holds one more line for each id. *)
Theorem nothing_eligible_is_no_error cfg ids st :
  ids ≠ [] →
  (∀ id, id ∈ ids → is_completed st id = false
                    ∨ uploaded_files_metadata st !! id = None) →
  let out := extract_data cfg (Some ids) st in
  out.2 = JsonData 200
            "No data extracted. Selected files might be empty or failed processing."
            []
  ∧ uploaded_files_metadata out.1 = uploaded_files_metadata st
  ∧ parsing_status out.1 = parsing_status st
  ∧ same_disk (world st) (world out.1)
  ∧ length (stdout (world out.1)) = length (stdout (world st)) + length ids.
Proof.
  intros Hne Hall out. subst out. unfold extract_data.
  destruct ids as [|x xs]; [done|].
  destruct (foldl (submit st) (world st, []) (x :: xs)) as [w1 futures] eqn:Hsub.
  apply submit_loop in Hsub as (Hsd & _ & Hnone).
  destruct (Hnone Hall) as [-> Hlen]. by simpl.
Qed.

Lemma nothing_eligible_is_no_error_witness :
  let out := extract_data sample.cfg (Some [sample.unknown_id; sample.bare_id])
               sample.served in
  out.2 = JsonData 200
            "No data extracted. Selected files might be empty or failed processing."
            []
  ∧ uploaded_files_metadata out.1 = uploaded_files_metadata sample.served
  ∧ parsing_status out.1 = parsing_status sample.served
  ∧ same_disk (world sample.served) (world out.1)
  ∧ length (stdout (world out.1))
    = length (stdout (world sample.served))
      + length [sample.unknown_id; sample.bare_id].
Proof.
  apply (nothing_eligible_is_no_error sample.cfg
           [sample.unknown_id; sample.bare_id] sample.served); [done|].
  intros id Hid. left.
  apply elem_of_cons in Hid as [->|Hid]; [by vm_compute|].
  apply list_elem_of_singleton in Hid as ->. by vm_compute.
Defined.

(** [extract_data] keeps to the files it was asked for.  It never writes
    to the task table; the registry of uploads keeps its ids, the entry of
    every id that is not both in the request and completed is untouched,
    and no entry loses its file name or its path; on disk the only files
    that can differ afterwards are the pickles of requested, completed
    ids, and no directory appears or disappears. *)
Theorem batch_keeps_to_its_files cfg ids st :
  let out := extract_data cfg (Some ids) st in
  parsing_status out.1 = parsing_status st
  ∧ dom (uploaded_files_metadata out.1) = dom (uploaded_files_metadata st)
  ∧ (∀ id, ¬ (id ∈ ids ∧ is_completed st id = true) →
       uploaded_files_metadata out.1 !! id = uploaded_files_metadata st !! id)
  ∧ (∀ id fi', uploaded_files_metadata out.1 !! id = Some fi' →
       ∃ fi, uploaded_files_metadata st !! id = Some fi
           ∧ original_filename fi' = original_filename fi
           ∧ saved_path fi' = saved_path fi)
  ∧ (∀ p, (∀ id, id ∈ ids → is_completed st id = true → p ≠ cache_path cfg id) →
          files (world out.1) !! p = files (world st) !! p)
  ∧ dirs (world out.1) = dirs (world st).
Proof.
  intros out. subst out. unfold extract_data.
  destruct ids as [|x xs]; [split_and!; eauto|].
  destruct (foldl (submit st) (world st, []) (x :: xs)) as [w1 futures] eqn:Hsub.
  apply submit_loop in Hsub as ((Hf1 & Hd1 & _) & Hin & _).
  destruct (foldl (run_future cfg) _ futures) as [[w2 metadata] results] eqn:Hrun.
  apply run_loop in Hrun as (Hdom & Hother & Hkept & Hfiles & Hdirs).
  destruct (foldl collect _ results) as [[w3 frames] n] eqn:Hcol.
  apply collect_loop in Hcol as [(Hf3 & Hd3 & _) _].
  assert (∀ id, id ∈ futures → id ∈ x :: xs ∧ is_completed st id = true) as Hel.
  { intros id [Hid|?]%Hin; [|done]. by apply elem_of_nil in Hid. }
  assert (parsing_status st = parsing_status st
          ∧ dom metadata = dom (uploaded_files_metadata st)
          ∧ (∀ id, ¬ (id ∈ x :: xs ∧ is_completed st id = true) →
               metadata !! id = uploaded_files_metadata st !! id)
          ∧ (∀ id fi', metadata !! id = Some fi' →
               ∃ fi, uploaded_files_metadata st !! id = Some fi
                   ∧ original_filename fi' = original_filename fi
                   ∧ saved_path fi' = saved_path fi)
          ∧ (∀ p, (∀ id, id ∈ x :: xs → is_completed st id = true →
                         p ≠ cache_path cfg id) →
                  files w3 !! p = files (world st) !! p)
          ∧ dirs w3 = dirs (world st)) as Hgoal.
  { split_and!; [done|done| |done| |].
    - intros id Hid. apply Hother. intros Hf. by apply Hid, Hel.
    - intros p Hp. rewrite <-Hf3, Hfiles, Hf1; [done|].
      intros id [Hid Hc]%Hel. by apply Hp.
    - by rewrite <-Hd3, Hdirs, Hd1. }
  by destruct frames.
Qed.

End batch_more.

(** ** File names *)

Section names.
Import ifc_parser app.

Lemma rsplit_dot_shape s :
  (str_contains "." s = false ∧ rsplit_dot s = [s])
  ∨ ∃ stem ext, str_contains "." s = true ∧ rsplit_dot s = [stem; ext]
      ∧ s = stem +:+ "." +:+ ext ∧ str_contains "." ext = false.
Proof.
  induction s as [|c s IH]; simpl; [by left|].
  destruct IH as [[Hno ->]|(stem & ext & Hdot & -> & -> & Hext)].
  - destruct (bool_decide (c = "."%char)) eqn:Hc; simpl; [|by left].
    apply bool_decide_eq_true in Hc as ->. right. by exists "", s.
  - right. exists (String c stem), ext. rewrite Hdot, orb_true_r. done.
Qed.

Lemma rsplit_dot_last stem ext :
  str_contains "." ext = false →
  rsplit_dot (stem +:+ "." +:+ ext) = [stem; ext].
Proof.
  intros Hext. induction stem as [|c stem IH].
  - change ("" +:+ "." +:+ ext) with (String "." ext). simpl.
    destruct (rsplit_dot_shape ext) as [[_ ->]|(? & ? & ? & _)]; [done|congruence].
  - change (String c stem +:+ "." +:+ ext)
      with (String c (stem +:+ "." +:+ ext)).
    simpl. by rewrite IH.
Qed.

Lemma str_contains_app c s t :
  str_contains c (s +:+ t) = str_contains c s || str_contains c t.
Proof.
  induction s as [|c' s IH]; [done|].
  change (String c' s +:+ t) with (String c' (s +:+ t)). simpl.
  by rewrite IH, orb_assoc.
Qed.

Lemma lower_char_dot c :
  bool_decide (lower_char c = "."%char) = bool_decide (c = "."%char).
Proof. by destruct c as [[] [] [] [] [] [] [] []]. Qed.

Lemma str_contains_lower s :
  str_contains "." (lower s) = str_contains "." s.
Proof.
  induction s as [|c s IH]; simpl; [done|]. by rewrite IH, lower_char_dot.
Qed.

(** A file name is accepted exactly when it ends with a dot followed by
    [ifc] in any mix of upper and lower case; what stands before that dot
    does not matter, and may be empty. *)
Theorem allowed_file_iff filename :
  allowed_file filename = true
  ↔ ∃ stem ext, filename = stem +:+ "." +:+ ext ∧ lower ext = "ifc".
Proof.
  unfold allowed_file, ALLOWED_EXTENSIONS. split.
  - intros [Hdot Hext]%andb_true_iff.
    destruct (rsplit_dot_shape filename)
      as [[Hno _]|(stem & ext & _ & Hsplit & -> & _)]; [congruence|].
    rewrite Hsplit in Hext. simpl in Hext.
    apply bool_decide_eq_true, list_elem_of_singleton in Hext.
    by exists stem, ext.
  - intros (stem & ext & -> & Hext).
    assert (str_contains "." ext = false) as Hno
      by (by rewrite <-str_contains_lower, Hext).
    rewrite rsplit_dot_last by done. simpl.
    rewrite str_contains_app. simpl. rewrite orb_true_r. simpl.
    apply bool_decide_eq_true, list_elem_of_singleton. done.
Qed.

Lemma app_cons c s t : String c s +:+ t = String c (s +:+ t).
Proof. done. Qed.

Lemma app_length s t : String.length (s +:+ t) = String.length s + String.length t.
Proof. induction s as [|c s IH]; [done|]. rewrite app_cons. simpl. by rewrite IH. Qed.

(** A common ending can be taken off. *)
Lemma app_inj_2 s1 s2 t : s1 +:+ t = s2 +:+ t → s1 = s2.
Proof.
  revert s2. induction s1 as [|c s1 IH]; intros [|c' s2] H; [done|..].
  - apply (f_equal String.length) in H. rewrite !app_length in H.
    simpl in H. lia.
  - apply (f_equal String.length) in H. rewrite !app_length in H.
    simpl in H. lia.
  - rewrite !app_cons in H. injection H as -> H. f_equal. by apply IH.
Qed.

Lemma app_assoc' (a b c : string) : (a +:+ b) +:+ c = a +:+ b +:+ c.
Proof. induction a as [|x a IH]; [done|]. by rewrite !app_cons, IH. Qed.

(** The last character of a string. *)
Fixpoint last_char (s : string) : option ascii :=
  match s with
  | EmptyString => None
  | String c EmptyString => Some c
  | String _ s' => last_char s'
  end.

Lemma last_char_app s t : t ≠ "" → last_char (s +:+ t) = last_char t.
Proof.
  intros Ht. induction s as [|c s IH]; [done|]. rewrite app_cons. simpl.
  rewrite IH. destruct (s +:+ t) eqn:Hst; [|done].
  apply (f_equal String.length) in Hst. rewrite app_length in Hst.
  destruct t; [done|]. simpl in Hst. lia.
Qed.

(** A joined path ends with the name it was given. *)
Lemma path_join_suffix d name ext :
  ∃ prefix, os.path_join d (name +:+ ext) = prefix +:+ ext.
Proof.
  unfold os.path_join. destruct (os.starts_with_sep _); [by exists name|].
  destruct (_ || _).
  - exists (d +:+ name). by rewrite app_assoc'.
  - exists (d +:+ "/" +:+ name). by rewrite !app_assoc'.
Qed.

Lemma path_join_inj d n1 n2 :
  os.starts_with_sep n1 = false → os.starts_with_sep n2 = false →
  os.path_join d n1 = os.path_join d n2 → n1 = n2.
Proof.
  unfold os.path_join. intros -> ->. destruct (_ || _).
  - by intros ?%(inj (String.app d)).
  - intros H%(inj (String.app d)). by apply (inj (String.app "/")) in H.
Qed.

Lemma starts_with_sep_app s t :
  s ≠ "" → os.starts_with_sep (s +:+ t) = os.starts_with_sep s.
Proof. by destruct s. Qed.

Lemma replace_dash_sep s :
  os.starts_with_sep (replace_dash s +:+ "_df.pkl") = os.starts_with_sep s.
Proof.
  destruct s as [|c s]; [done|].
  change (replace_dash (String c s))
    with (String (if bool_decide (c = "-"%char) then "_"%char else c)
            (replace_dash s)).
  rewrite app_cons. simpl.
  destruct (bool_decide (c = "-"%char)) eqn:Hc; [|done].
  by apply bool_decide_eq_true in Hc as ->.
Qed.

Lemma replace_dash_inj s1 s2 :
  str_contains "_" s1 = false → str_contains "_" s2 = false →
  replace_dash s1 = replace_dash s2 → s1 = s2.
Proof.
  revert s2. induction s1 as [|c1 s1 IH]; intros [|c2 s2]; simpl; try done.
  intros [Hc1 Hs1]%orb_false_iff [Hc2 Hs2]%orb_false_iff [= Hc Hs].
  apply bool_decide_eq_false in Hc1, Hc2.
  f_equal; [|by apply IH].
  destruct (bool_decide (c1 = "-"%char)) eqn:H1;
    destruct (bool_decide (c2 = "-"%char)) eqn:H2;
    try apply bool_decide_eq_true in H1; try apply bool_decide_eq_true in H2;
    congruence.
Qed.

(** The files the backend derives from file ids never fall on one
    another.  The pickle, the CSV and the JSON of any two ids have three
    different paths; and for ids shaped like the [uuid4] strings of the
    upload (no underscore, no leading slash) two different ids have
    different pickles, different CSV and different JSON files. *)
Theorem derived_paths_distinct cfg output_dir id1 id2 :
  str_contains "_" id1 = false → str_contains "_" id2 = false →
  os.starts_with_sep id1 = false → os.starts_with_sep id2 = false →
  (cache_path cfg id1 = cache_path cfg id2 → id1 = id2)
  ∧ (csv_path_of output_dir id1 = csv_path_of output_dir id2 → id1 = id2)
  ∧ (json_path_of output_dir id1 = json_path_of output_dir id2 → id1 = id2)
  ∧ cache_path cfg id1 ≠ csv_path_of output_dir id2
  ∧ cache_path cfg id1 ≠ json_path_of output_dir id2
  ∧ csv_path_of output_dir id1 ≠ json_path_of output_dir id2.
Proof.
  intros Hu1 Hu2 Hs1 Hs2.
  assert (∀ d d' n n' e e', last_char e ≠ last_char e' → e ≠ "" → e' ≠ "" →
            os.path_join d (n +:+ e) ≠ os.path_join d' (n' +:+ e')) as Hlast.
  { intros d d' n n' e e' Hne He He' Heq.
    destruct (path_join_suffix d n e) as [p Hp].
    destruct (path_join_suffix d' n' e') as [p' Hp'].
    rewrite Hp, Hp' in Heq. apply (f_equal last_char) in Heq.
    by rewrite !last_char_app in Heq. }
  unfold cache_path, csv_path_of, json_path_of. split_and!.
  - intros H%path_join_inj; [|by rewrite replace_dash_sep..].
    by apply app_inj_2, replace_dash_inj in H.
  - intros H%path_join_inj.
    + by apply app_inj_2 in H.
    + destruct id1; [done|]. by rewrite starts_with_sep_app.
    + destruct id2; [done|]. by rewrite starts_with_sep_app.
  - intros H%path_join_inj.
    + by apply app_inj_2 in H.
    + destruct id1; [done|]. by rewrite starts_with_sep_app.
    + destruct id2; [done|]. by rewrite starts_with_sep_app.
  - by apply Hlast.
  - by apply Hlast.
  - by apply Hlast.
Qed.

Lemma derived_paths_distinct_witness :
  (cache_path sample.cfg sample.house_id = cache_path sample.cfg sample.bare_id →
   sample.house_id = sample.bare_id)
  ∧ (csv_path_of "cache" sample.house_id = csv_path_of "cache" sample.bare_id →
     sample.house_id = sample.bare_id)
  ∧ (json_path_of "cache" sample.house_id = json_path_of "cache" sample.bare_id →
     sample.house_id = sample.bare_id)
  ∧ cache_path sample.cfg sample.house_id ≠ csv_path_of "cache" sample.bare_id
  ∧ cache_path sample.cfg sample.house_id ≠ json_path_of "cache" sample.bare_id
  ∧ csv_path_of "cache" sample.house_id ≠ json_path_of "cache" sample.bare_id.
Proof.
  apply (derived_paths_distinct sample.cfg "cache" sample.house_id sample.bare_id);
    reflexivity.
Defined.

(** Outside that shape the replacement of dashes makes ids meet. *)
Example dash_and_underscore_share_a_pickle cfg :
  cache_path cfg "a-b" = cache_path cfg "a_b".
Proof. done. Qed.

End names.

(** ** The tables the backend keeps, and the graph endpoint *)

Section kept_tables.
Import ifc_parser app.

(** A table as the extractor answers it: [pd.DataFrame()], or one with
    the seven columns of the reordering. *)
Definition extractor_table (df : pd.DataFrame) : Prop :=
  pd.columns df = [] ∨ pd.columns df = output_columns.

Definition pickles_shaped (w : World) : Prop :=
  ∀ p df, files w !! p = Some (PickleFile df) → extractor_table df.

Definition memory_shaped (file_info : FileInfo) : Prop :=
  ∀ df, processed_data_df file_info = Some df → extractor_table df.

(** Every table that is pickled on disk or attached to an entry of the
    registry is one of the extractor. *)
Definition tables_shaped (st : AppState) : Prop :=
  pickles_shaped (world st)
  ∧ ∀ file_id file_info, uploaded_files_metadata st !! file_id = Some file_info →
                         memory_shaped file_info.

Lemma pickles_shaped_same_files w w' :
  files w = files w' → pickles_shaped w → pickles_shaped w'.
Proof. intros Hf H p df. rewrite <-Hf. apply H. Qed.

Lemma extract_shaped p w df :
  (extract_properties_from_ifc p w).2 = Ok df → extractor_table df.
Proof.
  destruct (ifcopenshell_open w p) as [m|e] eqn:Hopen.
  - destruct (extract_opened p w m Hopen) as (w0 & _ & ->).
    destruct (extracted_data_list m) as [[|r l]|e]; [|by intros [= <-]; right|done].
    intros [= <-]. by left.
  - unfold extract_properties_from_ifc. rewrite Hopen. intros [= <-]. by left.
Qed.

(** A call keeps the tables in shape, and returns one in shape. *)
Lemma process_shaped app_context cfg file_id file_info w :
  pickles_shaped w → memory_shaped file_info →
  let out := process_single_ifc_file app_context cfg file_id file_info w in
  pickles_shaped out.1.1 ∧ memory_shaped out.1.2
  ∧ ∀ r, out.2 = Ok r → extractor_table r.2.
Proof.
  intros Hw Hfi out. subst out. unfold process_single_ifc_file.
  destruct (disk_tier file_id file_info w) as [[w1 fi1] [df1|]] eqn:Hdisk.
  { apply disk_tier_returns in Hdisk as (-> & (Hf & _) & p & _ & Hp).
    simpl. pose proof (Hw p df1 Hp) as Hdf. split_and!.
    - by apply (pickles_shaped_same_files w).
    - by intros df [= <-].
    - by intros r [= <-]. }
  apply disk_tier_falls_through in Hdisk as [-> (Hf & _)].
  assert (pickles_shaped w1) as Hw1 by (by apply (pickles_shaped_same_files w)).
  unfold memory_tier.
  destruct (processed_data_df file_info) as [df1|] eqn:Hmem.
  { simpl. split_and!; [done| |].
    - intros df Hdf. apply Hfi. by rewrite <-Hdf.
    - intros r [= <-]. by apply Hfi. }
  assert (memory_shaped file_info) as Hfi' by done.
  unfold fresh_tier.
  destruct (negb _ && _).
  2:{ simpl. split_and!; [done..|]. intros r [= <-]. by left. }
  pose proof (extract_same_disk (saved_path file_info)
                (print (LogLoadingFromIfc file_id) w1)) as (Hf3 & _).
  pose proof (extract_shaped (saved_path file_info)
                (print (LogLoadingFromIfc file_id) w1)) as Hshape.
  destruct (extract_properties_from_ifc _ _) as [w3 [df1|e0]]; simpl in Hf3, Hshape.
  - specialize (Hshape df1 eq_refl).
    assert (pickles_shaped w3) as Hw3 by (by apply (pickles_shaped_same_files w1)).
    destruct (negb (pd.empty df1)).
    + unfold os.write_file. destruct (bool_decide _); simpl.
      { split_and!; [done| |by intros r [= <-]]. by intros df [= <-]. }
      destruct (write_fault _ _); simpl.
      * split_and!; [|by intros df [= <-]|by intros r [= <-]].
        intros p df. simpl. destruct (decide (cache_path cfg file_id = p)) as [<-|Hne].
        -- rewrite lookup_insert_eq. by intros [= <-].
        -- rewrite lookup_insert_ne by done. apply Hw3.
      * split_and!; [done| |by intros r [= <-]]. by intros df [= <-].
      * split_and!; [|by intros df [= <-]|by intros r [= <-]].
        intros p df. simpl. destruct (decide (cache_path cfg file_id = p)) as [<-|Hne].
        -- by rewrite lookup_insert_eq.
        -- rewrite lookup_insert_ne by done. apply Hw3.
    + simpl. split_and!; [done| |by intros r [= <-]]. by intros df [= <-].
  - assert (pickles_shaped w3) as Hw3 by (by apply (pickles_shaped_same_files w1)).
    destruct app_context; simpl; (split_and!; [done|done|]); [|done].
    intros r [= <-]. by left.
Qed.

(** In the thread of a request, the call returns. *)
Lemma process_in_context_returns cfg file_id file_info w :
  is_ok (process_single_ifc_file true cfg file_id file_info w).2 = true.
Proof.
  unfold process_single_ifc_file.
  destruct (disk_tier _ _ _) as [[w1 fi1] [df|]]; [done|].
  destruct (memory_tier _ _ _) as [w2 [df|]]; [done|].
  unfold fresh_tier. destruct (negb _ && _); [|done].
  destruct (extract_properties_from_ifc _ _) as [w3 [df|e]]; [|done].
  destruct (negb (pd.empty df)); [|done].
  by destruct (os.write_file _ _ _) as [w4 [[]|e]].
Qed.

Lemma run_loop_shaped cfg futures w metadata results w' metadata' results' :
  foldl (run_future cfg) (w, metadata, results) futures
  = (w', metadata', results') →
  pickles_shaped w →
  (∀ id fi, metadata !! id = Some fi → memory_shaped fi) →
  pickles_shaped w'
  ∧ ∀ id fi, metadata' !! id = Some fi → memory_shaped fi.
Proof.
  revert w metadata results.
  induction futures as [|x futures IH]; intros w metadata results; simpl.
  { by intros [= <- <- <-]. }
  destruct (metadata !! x) as [fi|] eqn:Hx; [|by apply IH].
  intros Hrun Hw Hm.
  pose proof (process_shaped false cfg x fi w Hw (Hm x fi Hx)) as (Hw1 & Hfi1 & _).
  destruct (process_single_ifc_file false cfg x fi w) as [[w1 fi1] r].
  apply IH in Hrun; [done|done|]. intros id fi0.
  destruct (decide (x = id)) as [->|Hne].
  - rewrite lookup_insert_eq. by intros [= <-].
  - rewrite lookup_insert_ne by done. apply Hm.
Qed.

Lemma extract_data_shaped cfg request st :
  tables_shaped st → tables_shaped (extract_data cfg request st).1.
Proof.
  intros [Hw Hm]. unfold extract_data.
  destruct request as [[|x xs]|]; [done| |done].
  destruct (foldl (submit st) _ _) as [w1 futures] eqn:Hsub.
  apply submit_loop in Hsub as ((Hf1 & _) & _).
  destruct (foldl (run_future cfg) _ futures) as [[w2 metadata] results] eqn:Hrun.
  apply run_loop_shaped in Hrun as [Hw2 Hm2];
    [|by apply (pickles_shaped_same_files (world st))|done].
  destruct (foldl collect _ results) as [[w3 frames] n] eqn:Hcol.
  apply collect_loop in Hcol as [(Hf3 & _) _].
  assert (tables_shaped {| world := w3; uploaded_files_metadata := metadata;
                           parsing_status := parsing_status st |}) as Hgoal.
  { split; [|done]. by apply (pickles_shaped_same_files w2). }
  by destruct frames.
Qed.

(** The parser writes CSV and JSON files, and removes them; it never
    leaves a pickle. *)
Lemma write_file_pickles p d w :
  (∀ df, d ≠ PickleFile df) → pickles_shaped w →
  pickles_shaped (os.write_file p d w).1.
Proof.
  intros Hd Hw. unfold os.write_file. destruct (bool_decide _); [done|].
  destruct (write_fault w p); simpl; [|done|];
    intros q df; simpl; (destruct (decide (p = q)) as [<-|Hne];
      [rewrite lookup_insert_eq|rewrite lookup_insert_ne by done; apply Hw]).
  - intros [= ->]. by destruct (Hd df).
  - done.
Qed.

Lemma cleanup_pickles p cleaned failed w :
  pickles_shaped w → pickles_shaped (cleanup p cleaned failed w).
Proof.
  intros Hw. unfold cleanup, os.remove. destruct (os.path_exists w p); [|done].
  destruct (_ || _); simpl; [done|]. intros q df. simpl.
  destruct (decide (p = q)) as [<-|Hne].
  - by rewrite lookup_delete_eq.
  - rewrite lookup_delete_ne by done. apply Hw.
Qed.

Lemma parse_pickles ifc_file_path output_dir file_id w :
  pickles_shaped w →
  pickles_shaped (parse_ifc_to_files ifc_file_path output_dir file_id w).1.
Proof.
  intros Hw. unfold parse_ifc_to_files.
  pose proof (extract_same_disk ifc_file_path
                (print (LogStartParsing ifc_file_path file_id) w)) as (Hf1 & _).
  destruct (extract_properties_from_ifc _ _) as [w1 [df|e]]; simpl in Hf1;
    [|by apply (pickles_shaped_same_files w)].
  assert (pickles_shaped w1) as Hw1 by (by apply (pickles_shaped_same_files w)).
  destruct (pd.empty df); [done|].
  assert (files (ensure_output_dir output_dir file_id w1).1 = files w1) as Hfd.
  { unfold ensure_output_dir, os.makedirs. destruct (negb _); [|done].
    by destruct (makedirs_fails w1 output_dir). }
  destruct (ensure_output_dir output_dir file_id w1) as [wd ready].
  simpl in Hfd. symmetry in Hfd.
  assert (pickles_shaped wd) as Hwd by (by apply (pickles_shaped_same_files w1)).
  destruct ready; simpl; [|done].
  assert (pickles_shaped
            (save_outputs (csv_path_of output_dir file_id)
               (json_path_of output_dir file_id) df wd).1) as Hsave.
  { unfold save_outputs.
    pose proof (write_file_pickles (csv_path_of output_dir file_id) (CsvFile df) wd
                  ltac:(done) Hwd) as H1.
    destruct (os.write_file _ (CsvFile df) wd) as [w2 [[]|e]]; [|done].
    simpl in H1.
    pose proof (write_file_pickles (json_path_of output_dir file_id)
                  (JsonFile (map pd.clean_record (pd.to_records df)))
                  (print (LogSavedCsv (csv_path_of output_dir file_id)) w2)
                  ltac:(done) H1) as H2.
    by destruct (os.write_file _ (JsonFile _) _) as [w3 [[]|e]]. }
  destruct (save_outputs _ _ df wd) as [w2 [[]|e]]; [done|]. simpl in Hsave. simpl.
  by apply cleanup_pickles, cleanup_pickles.
Qed.

Lemma worker_step_shaped cfg file_id path dir pc st :
  tables_shaped st → tables_shaped (worker_step cfg file_id path dir pc st).2.
Proof.
  intros [Hw Hm]. unfold worker_step.
  destruct pc as [| |[r|e]|csv json|csv json|msg|]; simpl; try done.
  - by destruct (parsing_status st !! file_id).
  - pose proof (parse_pickles path dir file_id (world st) Hw) as Hp.
    by destruct (parse_ifc_to_files _ _ _ _) as [w r].
  - by destruct (both_paths r) as [[c j]|].
Qed.

(** The tables the server keeps are tables of the extractor, whatever
    was uploaded and requested, provided the disk it started with held no
    pickle of another shape: every pickle on disk and every table attached
    to an entry of the registry is [pd.DataFrame()] or has the seven
    columns of the extractor. *)
Theorem kept_tables_are_extractor_tables cfg w sv :
  pickles_shaped w → reachable cfg w sv → tables_shaped (state sv).
Proof.
  intros Hw. induction 1 as [|sv sv' Hreach IH Hstep].
  - split; [done|]. intros id fi Hfi. simpl in Hfi. by rewrite lookup_empty in Hfi.
  - destruct Hstep as [sv id name path sch soft m _ _ _|sv id wk Hwk _|sv request].
    + destruct IH as [Hp Hm]. split; simpl.
      * intros p df. simpl. destruct (decide (path = p)) as [<-|Hne].
        -- by rewrite lookup_insert_eq.
        -- rewrite lookup_insert_ne by done. apply Hp.
      * intros id0 fi. destruct (decide (id = id0)) as [<-|Hne].
        -- rewrite lookup_insert_eq. by intros [= <-] df.
        -- rewrite lookup_insert_ne by done. apply Hm.
    + unfold advance.
      pose proof (worker_step_shaped cfg id (worker_path wk) (worker_output_dir wk)
                    (worker_pc wk) (state sv) IH) as Hs.
      by destruct (worker_step _ _ _ _ _ _) as [pc st].
    + simpl. by apply extract_data_shaped.
Qed.

Lemma kept_tables_are_extractor_tables_witness :
  tables_shaped (state sample.after_line_550).
Proof.
  apply (kept_tables_are_extractor_tables sample.cfg sample.world).
  - intros p df Hp. exfalso. revert Hp. unfold sample.world, sample.disk. simpl.
    rewrite !lookup_insert_Some, lookup_empty. naive_solver.
  - apply after_line_550_reachable.
Defined.

(** The graph endpoint tests the column [IfcEntity], the extractor names
    it [IFC_Entity]: on the tables the server keeps the endpoint never
    draws.  Whatever [str], the drawing and the graphs folder are, it
    answers without using them: with 400, 404, or 200 and no picture; it
    never answers 500; and the tables are in shape afterwards. *)
Theorem graph_endpoint_never_draws py_str draw_and_save GRAPHS_FOLDER cfg
    request st :
  tables_shaped st →
  let out := generate_graph py_str draw_and_save GRAPHS_FOLDER cfg request st in
  (∀ py_str' draw_and_save' GRAPHS_FOLDER',
     generate_graph py_str' draw_and_save' GRAPHS_FOLDER' cfg request st = out)
  ∧ out.1.2 = []
  ∧ ((∃ code error, out.2 = GraphError code error ∧ (code = 400 ∨ code = 404))
     ∨ ∃ message, out.2 = GraphAnswer message None)
  ∧ tables_shaped out.1.1.
Proof.
  intros Hst out. subst out. unfold generate_graph.
  destruct request as [file_id|]; [|split_and!; eauto 6].
  destruct (bool_decide (file_id = "")); [split_and!; eauto 6|].
  destruct (negb (is_completed st file_id)); [split_and!; eauto 6|].
  destruct (uploaded_files_metadata st !! file_id) as [fi|] eqn:Hfi;
    [|split_and!; eauto 6].
  destruct Hst as [Hw Hm].
  pose proof (process_shaped true cfg file_id fi (world st) Hw (Hm _ _ Hfi))
    as (Hw1 & Hfi1 & Hr).
  pose proof (process_in_context_returns cfg file_id fi (world st)) as Hok.
  destruct (process_single_ifc_file true cfg file_id fi (world st))
    as [[w1 fi1] [[[i name] df]|e]]; [|done].
  simpl in Hw1, Hfi1, Hr. specialize (Hr _ eq_refl). simpl in Hr.
  assert (tables_shaped {| world := w1;
                           uploaded_files_metadata :=
                             <[file_id := fi1]> (uploaded_files_metadata st);
                           parsing_status := parsing_status st |}) as Hst1.
  { split; [done|]. simpl. intros id fi0.
    destruct (decide (file_id = id)) as [<-|Hne].
    - rewrite lookup_insert_eq. by intros [= <-].
    - rewrite lookup_insert_ne by done. apply Hm. }
  destruct (pd.empty df) eqn:Hempty; [split_and!; eauto 6|].
  assert (∀ s, property_graph s df = nx.empty) as Hgraph.
  { intros s. unfold property_graph.
    destruct Hr as [Hcols|Hcols]; rewrite Hcols; by vm_compute. }
  rewrite !Hgraph. simpl. split_and!; eauto 6.
  intros s d g. by rewrite Hgraph.
Qed.

Lemma graph_endpoint_never_draws_witness :
  let out := generate_graph (λ _, "") (λ _ _ _ w, (w, Ok ())) "static/graphs"
               sample.cfg (Some sample.house_id) sample.served in
  (∀ py_str' draw_and_save' GRAPHS_FOLDER',
     generate_graph py_str' draw_and_save' GRAPHS_FOLDER' sample.cfg
       (Some sample.house_id) sample.served = out)
  ∧ out.1.2 = []
  ∧ ((∃ code error, out.2 = GraphError code error ∧ (code = 400 ∨ code = 404))
     ∨ ∃ message, out.2 = GraphAnswer message None)
  ∧ tables_shaped out.1.1.
Proof.
  apply (graph_endpoint_never_draws (λ _, "") (λ _ _ _ w, (w, Ok ()))
           "static/graphs" sample.cfg (Some sample.house_id) sample.served).
  split.
  - intros p df Hp. exfalso. revert Hp.
    unfold sample.served, sample.world, sample.disk. simpl.
    rewrite !lookup_insert_Some, lookup_empty. naive_solver.
  - intros id fi. unfold sample.served. simpl.
    rewrite lookup_singleton_Some. by intros [_ <-] df.
Defined.

End kept_tables.
